(** * MotorStepper: the [BipolarStepper] class of [stepper/bipolar.py]

    A shallow embedding of the MicroPython driver for a bipolar stepper
    motor behind an L298N bridge, and the properties of its phase
    sequencer, its speed and direction tables, its step counting and its
    step partitioning.

    Python integers are [Z]; [//] and [%] are [Z.div] and [Z.modulo]
    (both round toward minus infinity, the remainder takes the sign of the
    divisor) guarded by the zero test that raises [ZeroDivisionError].
    Dictionaries with string keys are [gmap string _].  Methods are
    computations in a monad that threads the object, may raise, and logs
    the calls made to the board ([Pin.value], [utime.sleep], [print]). *)

From Stdlib Require Import ZArith QArith Lia.
From stdpp Require Import base gmap strings list.

Open Scope Z_scope.

(** ** Python values and primitives *)

Module Py.

(** The exceptions the modelled code can meet.  [ValueError] is the
    exception Python code raises to reject an argument. *)
Inductive exn : Type :=
| ZeroDivisionError
| IndexError
| KeyError
| TypeError
| ValueError.

Inductive result (A : Type) : Type :=
| Ok (a : A)
| Raise (e : exn).
Arguments Ok {A} a.
Arguments Raise {A} e.

(** The objects a caller may pass where a name is expected: strings,
    and as samples of everything else an integer, [None], and a list
    (which is not hashable). *)
Inductive object : Type :=
| Str (s : string)
| Int (n : Z)
| NoneObj
| List (items : list Z).

(** [d[k]] on a dictionary whose keys are strings. *)
Definition dict_getitem {V : Type} (d : gmap string V) (k : object) : result V :=
  match k with
  | Str s => match d !! s with
             | Some v => Ok v
             | None => Raise KeyError
             end
  | Int _ | NoneObj => Raise KeyError
  | List _ => Raise TypeError
  end.

(** [a // b] *)
Definition floordiv (a b : Z) : result Z :=
  if b =? 0 then Raise ZeroDivisionError else Ok (a / b).

(** [a % b] *)
Definition modulo (a b : Z) : result Z :=
  if b =? 0 then Raise ZeroDivisionError else Ok (a mod b).

(** [range(n)]: empty when [n <= 0]. *)
Definition range (n : Z) : list Z := Z.of_nat <$> seq 0 (Z.to_nat n).

(** [n * l]: [l] repeated [n] times, empty when [n <= 0]. *)
Definition list_mul {A : Type} (n : Z) (l : list A) : list A :=
  mjoin (replicate (Z.to_nat n) l).

(** The position a list index denotes: negative indices count from the
    end, anything outside the list raises [IndexError]. *)
Definition index {A : Type} (l : list A) (i : Z) : result nat :=
  let len := Z.of_nat (length l) in
  let j := if i <? 0 then i + len else i in
  if (0 <=? j) && (j <? len) then Ok (Z.to_nat j) else Raise IndexError.

(** [l[i]] *)
Definition list_getitem {A : Type} (l : list A) (i : Z) : result A :=
  match index l i with
  | Ok j => match l !! j with
            | Some x => Ok x
            | None => Raise IndexError
            end
  | Raise e => Raise e
  end.

(** [l[i] = x] *)
Definition list_setitem {A : Type} (l : list A) (i : Z) (x : A) : result (list A) :=
  match index l i with
  | Ok j => Ok (<[j := x]> l)
  | Raise e => Raise e
  end.

(** Truth value of an integer, as [Pin.value(x)] reads its argument. *)
Definition truthy (x : Z) : bool := negb (x =? 0).

End Py.

Import Py.

(** ** The board: pins and the log of calls made to it *)

(** Modelled from the spec: [machine.Pin] and the [Pinout] class of
    [stepper/pinout.py] are not part of the sources at hand.  The spec
    describes them as four addressable boolean outputs, each settable
    independently; a pin keeps its GPIO number and its output level, and
    [Pin.value(x)] sets the level to the truth value of [x]. *)
Record Pin : Type := mkPin { gpio : Z; level : bool }.

(** Modelled from the spec: the missing [Pin.value(x)], which sets the
    output of the pin to the truth value of [x]. *)
Definition Pin_value (x : Z) (p : Pin) : Pin :=
  {| gpio := gpio p; level := truthy x |}.

Module Pinout.

(** Modelled from the spec: the missing [Pinout] class, as the four
    [Pin] attributes [pin1] .. [pin4] that [BipolarStepper] reads. *)
Record t : Type := mk { pin1 : Pin; pin2 : Pin; pin3 : Pin; pin4 : Pin }.

(** Modelled from the spec: the missing constructor
    [Pinout(pin1, pin2, pin3, pin4)]; the level a fresh pin holds is taken
    to be low ([__init__] ends by driving all four low anyway). *)
Definition new (p1 p2 p3 p4 : Z) : t :=
  {| pin1 := mkPin p1 false; pin2 := mkPin p2 false;
     pin3 := mkPin p3 false; pin4 := mkPin p4 false |}.

Inductive attr : Type := Pin1 | Pin2 | Pin3 | Pin4.

Definition get (a : attr) (p : t) : Pin :=
  match a with
  | Pin1 => pin1 p
  | Pin2 => pin2 p
  | Pin3 => pin3 p
  | Pin4 => pin4 p
  end.

Definition update (a : attr) (f : Pin -> Pin) (p : t) : t :=
  match a with
  | Pin1 => {| pin1 := f (pin1 p); pin2 := pin2 p; pin3 := pin3 p; pin4 := pin4 p |}
  | Pin2 => {| pin1 := pin1 p; pin2 := f (pin2 p); pin3 := pin3 p; pin4 := pin4 p |}
  | Pin3 => {| pin1 := pin1 p; pin2 := pin2 p; pin3 := f (pin3 p); pin4 := pin4 p |}
  | Pin4 => {| pin1 := pin1 p; pin2 := pin2 p; pin3 := pin3 p; pin4 := f (pin4 p) |}
  end.

End Pinout.

(** What the driver asks of the board, in the order it asks. *)
Inductive event : Type :=
| EvPin (line : Z) (v : bool)     (* [Pin.value(x)] on GPIO [line] *)
| EvSleep (seconds : Q)           (* [utime.sleep(seconds)] *)
| EvPrint (text : string).        (* [print(text)] *)

Definition is_sleep (e : event) : bool :=
  match e with EvSleep _ => true | _ => false end.

Definition is_pin (e : event) : bool :=
  match e with EvPin _ _ => true | _ => false end.

(** ** The object *)

(** The two bound methods [_dic_direction] holds and [_next_state] is set
    to. *)
Inductive bound_method : Type := Forward_step | Backward_step.

Record BipolarStepper : Type := mkStepper {
  _pinout : Pinout.t;
  _speed : gmap string Q;
  _delay : Q;
  _steps360 : Z;
  _step_state : Z;
  _dic_direction : gmap string bound_method;
  _next_state : bound_method
}.

Definition with_pinout (p : Pinout.t) (self : BipolarStepper) : BipolarStepper :=
  mkStepper p (_speed self) (_delay self) (_steps360 self) (_step_state self)
            (_dic_direction self) (_next_state self).

Definition with_speed (t : gmap string Q) (self : BipolarStepper) : BipolarStepper :=
  mkStepper (_pinout self) t (_delay self) (_steps360 self) (_step_state self)
            (_dic_direction self) (_next_state self).

Definition with_delay (d : Q) (self : BipolarStepper) : BipolarStepper :=
  mkStepper (_pinout self) (_speed self) d (_steps360 self) (_step_state self)
            (_dic_direction self) (_next_state self).

Definition with_steps360 (n : Z) (self : BipolarStepper) : BipolarStepper :=
  mkStepper (_pinout self) (_speed self) (_delay self) n (_step_state self)
            (_dic_direction self) (_next_state self).

Definition with_step_state (s : Z) (self : BipolarStepper) : BipolarStepper :=
  mkStepper (_pinout self) (_speed self) (_delay self) (_steps360 self) s
            (_dic_direction self) (_next_state self).

Definition with_dic_direction (t : gmap string bound_method) (self : BipolarStepper)
  : BipolarStepper :=
  mkStepper (_pinout self) (_speed self) (_delay self) (_steps360 self)
            (_step_state self) t (_next_state self).

Definition with_next_state (m : bound_method) (self : BipolarStepper) : BipolarStepper :=
  mkStepper (_pinout self) (_speed self) (_delay self) (_steps360 self)
            (_step_state self) (_dic_direction self) m.

(** ** Methods as computations

    A method run on [self] yields its result or the exception it raised,
    the object as it left it, and the board calls it made. *)

Definition M (A : Type) : Type := BipolarStepper -> result A * BipolarStepper * list event.

Definition ret {A : Type} (a : A) : M A := fun self => (Ok a, self, []).

Definition bind {A B : Type} (m : M A) (k : A -> M B) : M B :=
  fun self =>
    match m self with
    | (Ok a, self1, t1) =>
        match k a self1 with
        | (r, self2, t2) => (r, self2, t1 ++ t2)
        end
    | (Raise e, self1, t1) => (Raise e, self1, t1)
    end.

#[global] Instance M_ret : MRet M := @ret.
#[global] Instance M_bind : MBind M := fun A B k m => bind m k.

(** A value or exception computed without touching the object. *)
Definition lift {A : Type} (r : result A) : M A := fun self => (r, self, []).

(** Attribute read and attribute assignment. *)
Definition attr {A : Type} (f : BipolarStepper -> A) : M A :=
  fun self => (Ok (f self), self, []).

Definition assign (f : BipolarStepper -> BipolarStepper) : M unit :=
  fun self => (Ok tt, f self, []).

Definition emit (e : event) : M unit := fun self => (Ok tt, self, [e]).

(** [try: m  except: h] with a bare [except], which catches everything. *)
Definition try_except {A : Type} (m h : M A) : M A :=
  fun self =>
    match m self with
    | (Ok a, self1, t1) => (Ok a, self1, t1)
    | (Raise _, self1, t1) =>
        match h self1 with
        | (r, self2, t2) => (r, self2, t1 ++ t2)
        end
    end.

(** [for x in xs: acc = body(x, acc)], the loop-carried local being [acc]. *)
Fixpoint for_in {X L : Type} (xs : list X) (body : X -> L -> M L) (acc : L) : M L :=
  match xs with
  | [] => ret acc
  | x :: xs' => acc' ← body x acc; for_in xs' body acc'
  end.

(** The parts of an outcome. *)
Definition outcome {A : Type} (o : result A * BipolarStepper * list event) : result A :=
  fst (fst o).
Definition final {A : Type} (o : result A * BipolarStepper * list event) : BipolarStepper :=
  snd (fst o).
Definition calls {A : Type} (o : result A * BipolarStepper * list event) : list event :=
  snd o.

(** ** The methods of [BipolarStepper] *)

(** 1100 -> 0110 -> 0011 -> 1001 *)
Definition _forward_step : M unit :=
  s ← attr _step_state;
  let first_bit := Z.land s 1 (* 0b0001 *) in
  s' ← attr _step_state;
  assign (with_step_state (Z.lor (Z.shiftr s' 1) (Z.shiftl first_bit 3))).

(** 1100 -> 1001 -> 0011 -> 0110.  In Python [&] binds tighter than [|]. *)
Definition _backward_step : M unit :=
  s ← attr _step_state;
  let last_bit := Z.land s 8 (* 0b1000 *) in
  s' ← attr _step_state;
  assign (with_step_state
            (Z.lor (Z.land 15 (* 0b1111 *) (Z.shiftl s' 1)) (Z.shiftr last_bit 3))).

(** Calling a stored bound method. *)
Definition call (m : bound_method) : M unit :=
  match m with
  | Forward_step => _forward_step
  | Backward_step => _backward_step
  end.

(** [(self.pinK).value(x)] *)
Definition pin_value (a : Pinout.attr) (x : Z) : M unit :=
  fun self =>
    (Ok tt,
     with_pinout (Pinout.update a (Pin_value x) (_pinout self)) self,
     [EvPin (gpio (Pinout.get a (_pinout self))) (truthy x)]).

Definition _move_motor : M unit :=
  s ← attr _step_state; pin_value Pinout.Pin2 (Z.land s 8);;   (* A+ *)
  s ← attr _step_state; pin_value Pinout.Pin1 (Z.land s 4);;   (* B+ *)
  s ← attr _step_state; pin_value Pinout.Pin4 (Z.land s 2);;   (* A- *)
  s ← attr _step_state; pin_value Pinout.Pin3 (Z.land s 1);;   (* B- *)
  d ← attr _delay; emit (EvSleep d).

Definition steps360 : M Z := attr _steps360.

Definition set_speed (speed : object) : M unit :=
  try_except
    (t ← attr _speed; d ← lift (dict_getitem t speed); assign (with_delay d))
    (t ← attr _speed; d ← lift (dict_getitem t (Str "high")); assign (with_delay d)).

Definition set_direction (direction : object) : M unit :=
  try_except
    (t ← attr _dic_direction; m ← lift (dict_getitem t direction);
     assign (with_next_state m))
    (t ← attr _dic_direction; m ← lift (dict_getitem t (Str "forward"));
     assign (with_next_state m)).

(** One turn of the loop of [next_steps]. *)
Definition advance : M unit :=
  m ← attr _next_state; call m;;
  _move_motor.

Definition next_steps (nsteps : Z) : M unit :=
  for_in (range nsteps) (fun _ _ => advance) tt.

(** The count [next_angle] hands to [next_steps]:
    [self.steps360*angle//360]. *)
Definition angle_steps (steps angle : Z) : result Z :=
  floordiv (steps * angle) 360.

Definition next_angle (angle : Z) : M unit :=
  s ← steps360;
  n ← lift (angle_steps s angle);
  next_steps n.

Definition sleep : M unit :=
  pin_value Pinout.Pin1 0;;
  pin_value Pinout.Pin2 0;;
  pin_value Pinout.Pin3 0;;
  pin_value Pinout.Pin4 0.

Definition split_steps (nsplits : Z) : M (list Z) :=
  s ← steps360;
  q ← lift (floordiv s nsplits);
  let l := list_mul nsplits [q] in
  s' ← steps360;
  r ← lift (modulo s' nsplits);
  for_in (range r)
         (fun i l => x ← lift (list_getitem l (-1 - i));
                     lift (list_setitem l (-1 - i) (x + 1)))
         l.

(** The speed and direction tables that [__init__] builds.  A delay is the
    decimal number written in the source, in seconds, kept exact:
    [0.003] is 3/1000 s, that is 3 ms. *)
Definition speed_table : gmap string Q :=
  {[ "high" := 0.003%Q; "medium" := 0.008%Q; "low" := 0.016%Q; "test" := 0.5%Q ]}.

Definition direction_table : gmap string bound_method :=
  {[ "forward" := Forward_step; "backward" := Backward_step ]}.

Definition __init__ (pin1 pin2 pin3 pin4 : Z) (speed direction : object) (steps : Z)
  : M unit :=
  assign (with_pinout (Pinout.new pin1 pin2 pin3 pin4));;
  assign (with_speed speed_table);;
  set_speed speed;;
  assign (with_steps360 steps);;
  assign (with_step_state 12 (* 0b1100 *));;
  assign (with_dic_direction direction_table);;
  set_direction direction;;
  emit (EvPrint "init motor");;
  sleep.

(** The object before [__init__] has assigned anything: every attribute
    holds a placeholder, and [__init__] assigns each attribute before a
    method reads it. *)
Definition blank : BipolarStepper :=
  mkStepper (Pinout.new 0 0 0 0) ∅ 0%Q 0 0 ∅ Forward_step.

(** [BipolarStepper(pin1, pin2, pin3, pin4, speed, direction, steps360)] *)
Definition construct (pin1 pin2 pin3 pin4 : Z) (speed direction : object) (steps : Z)
  : result unit * BipolarStepper * list event :=
  __init__ pin1 pin2 pin3 pin4 speed direction steps blank.

(** [BipolarStepper()] with every argument at its default. *)
Definition default_stepper : BipolarStepper :=
  final (construct 17 16 15 14 (Str "high") (Str "forward") 200).


(** ** What the claims speak of *)

(** The four phases of the canonical cycle: 1100, 0110, 0011, 1001. *)
Definition canonical_phases : list Z := [12; 6; 3; 9].

(** How many of the four wired bits of a pattern are set. *)
Definition bits_set (p : Z) : nat :=
  length (List.filter (Z.testbit p) [0; 1; 2; 3]).

(** Some two neighbouring positions of the 4-position cycle (position 3 is
    next to position 0) are both set. *)
Definition adjacent_pair (p : Z) : bool :=
  existsb (fun i => Z.testbit p i && Z.testbit p ((i + 1) mod 4)) [0; 1; 2; 3].

(** The objects that exist: what a constructor call leaves, and what a
    forward or backward transition makes of such an object. *)
Inductive reachable : BipolarStepper -> Prop :=
| reachable_init pin1 pin2 pin3 pin4 speed direction steps :
    reachable (final (construct pin1 pin2 pin3 pin4 speed direction steps))
| reachable_step d self :
    reachable self -> reachable (final (call d self)).

Definition reachable_pattern (p : Z) : Prop :=
  exists self, reachable self /\ _step_state self = p.

(** The tables are the ones [__init__] assigned. *)
Definition tables_intact (self : BipolarStepper) : Prop :=
  _speed self = speed_table /\ _dic_direction self = direction_table.

(** How many single-step advances a log shows: each advance ends in one
    [utime.sleep]. *)
Definition sleeps (t : list event) : nat := length (List.filter is_sleep t).
Definition pin_writes (t : list event) : nat := length (List.filter is_pin t).

(** [k] single-step advances in a row. *)
Fixpoint advances (k : nat) : M unit :=
  match k with
  | O => ret tt
  | S k' => advance;; advances k'
  end.

(** [sum(l)] *)
Definition sum (l : list Z) : Z := foldr Z.add 0 l.

(** The four pins with their outputs low. *)
Definition released (p : Pinout.t) : Pinout.t :=
  {| Pinout.pin1 := mkPin (gpio (Pinout.pin1 p)) false;
     Pinout.pin2 := mkPin (gpio (Pinout.pin2 p)) false;
     Pinout.pin3 := mkPin (gpio (Pinout.pin3 p)) false;
     Pinout.pin4 := mkPin (gpio (Pinout.pin4 p)) false |}.

(** A call of a public method. *)
Inductive request : Type :=
| SetSpeed (speed : object)
| SetDirection (direction : object)
| NextSteps (nsteps : Z)
| NextAngle (angle : Z)
| Sleep
| SplitSteps (nsplits : Z).

(** The object a call leaves behind, whether it returned or raised. *)
Definition serve (r : request) (self : BipolarStepper) : BipolarStepper :=
  match r with
  | SetSpeed speed => final (set_speed speed self)
  | SetDirection direction => final (set_direction direction self)
  | NextSteps nsteps => final (next_steps nsteps self)
  | NextAngle angle => final (next_angle angle self)
  | Sleep => final (sleep self)
  | SplitSteps nsplits => final (split_steps nsplits self)
  end.

(** The objects a program can hold: a constructed one, and what public
    calls make of it. *)
Inductive in_use : BipolarStepper -> Prop :=
| in_use_new pin1 pin2 pin3 pin4 speed direction steps :
    in_use (final (construct pin1 pin2 pin3 pin4 speed direction steps))
| in_use_serve r self :
    in_use self -> in_use (serve r self).

(** What holds of every object in use. *)
Definition sound (self : BipolarStepper) : Prop :=
  tables_intact self /\ _step_state self ∈ canonical_phases.

(** Python's [ValueError] is the explicit rejection of an argument. *)
Definition invalid_argument {A : Type} (r : result A) : Prop := r = Raise ValueError.

(** ** What the further properties speak of *)

(** The step state that the transition [d] makes of the step state [s]. *)
Definition shift (d : bound_method) (s : Z) : Z :=
  _step_state (final (call d (with_step_state s blank))).

(** The four pins driven by the bits of [s] the way [_move_motor] wires
    them: bit 3 on pin 2 (A+), bit 2 on pin 1 (B+), bit 1 on pin 4 (A-),
    bit 0 on pin 3 (B-). *)
Definition driven (s : Z) (p : Pinout.t) : Pinout.t :=
  {| Pinout.pin1 := mkPin (gpio (Pinout.pin1 p)) (Z.testbit s 2);
     Pinout.pin2 := mkPin (gpio (Pinout.pin2 p)) (Z.testbit s 3);
     Pinout.pin3 := mkPin (gpio (Pinout.pin3 p)) (Z.testbit s 0);
     Pinout.pin4 := mkPin (gpio (Pinout.pin4 p)) (Z.testbit s 1) |}.

(** The board calls of one advance that arrives at step state [s]. *)
Definition step_log (self : BipolarStepper) (s : Z) : list event :=
  [EvPin (gpio (Pinout.pin2 (_pinout self))) (Z.testbit s 3);
   EvPin (gpio (Pinout.pin1 (_pinout self))) (Z.testbit s 2);
   EvPin (gpio (Pinout.pin4 (_pinout self))) (Z.testbit s 1);
   EvPin (gpio (Pinout.pin3 (_pinout self))) (Z.testbit s 0);
   EvSleep (_delay self)].

(** The step state [k] transitions in the stored direction lead to. *)
Definition phase_after (k : nat) (self : BipolarStepper) : Z :=
  Nat.iter k (shift (_next_state self)) (_step_state self).

(** The object [k] advances lead to, and the board calls they make. *)
Definition stepped (k : nat) (self : BipolarStepper) : BipolarStepper :=
  match k with
  | O => self
  | S _ => with_pinout (driven (phase_after k self) (_pinout self))
                       (with_step_state (phase_after k self) self)
  end.

Definition stepped_log (k : nat) (self : BipolarStepper) : list event :=
  mjoin ((fun i => step_log self (phase_after (S i) self)) <$> seq 0 k).

(** The time a log spends in [utime.sleep], in seconds. *)
Definition waited (t : list event) : Q :=
  foldr (fun e acc => match e with EvSleep d => (d + acc)%Q | _ => acc end) 0%Q t.

(** The GPIO lines a log writes to. *)
Definition lines_written (t : list event) : list Z :=
  omap (fun e => match e with EvPin line _ => Some line | _ => None end) t.

(** The levels of A+, B+, A-, B-, that is of pins 2, 1, 4, 3. *)
Definition coil_levels (self : BipolarStepper) : list bool :=
  [level (Pinout.pin2 (_pinout self)); level (Pinout.pin1 (_pinout self));
   level (Pinout.pin4 (_pinout self)); level (Pinout.pin3 (_pinout self))].

(** The pins are all low, or they show the bits of the step state. *)
Definition pins_settled (self : BipolarStepper) : Prop :=
  _pinout self = released (_pinout self) \/
  _pinout self = driven (_step_state self) (_pinout self).


(** [for n in l: self.next_steps(n)] *)
Definition step_each (l : list Z) : M unit :=
  for_in l (fun n _ => next_steps n) tt.

(** ** Properties *)

Section Sequencer.

Lemma four_bit_cases (s : Z) :
  0 <= s < 16 ->
  s ∈ [0; 1; 2; 3; 4; 5; 6; 7; 8; 9; 10; 11; 12; 13; 14; 15].
Proof.
  intros H. rewrite !elem_of_cons. lia.
Qed.

Lemma call_total (d : bound_method) (self : BipolarStepper) :
  outcome (call d self) = Ok tt /\ calls (call d self) = [].
Proof. destruct d; split; reflexivity. Qed.

Lemma call_frame (d : bound_method) (self : BipolarStepper) :
  exists s, final (call d self) = with_step_state s self.
Proof. destruct d; eexists; reflexivity. Qed.

End Sequencer.

(** C1: from any 4-bit pattern, four transitions in the same direction,
    forward or backward, bring the step state back to where it was; the
    rest of the object is untouched and nothing is raised. *)
Theorem transition_cycle_four (d : bound_method) (self : BipolarStepper) :
  0 <= _step_state self < 16 ->
  (call d;; call d;; call d;; call d) self = (Ok tt, self, []).
Proof.
  intros H. destruct self as [po sp de st ss dd ns]. simpl in H.
  apply four_bit_cases in H. rewrite !elem_of_cons, elem_of_nil in H.
  destruct d; repeat (destruct H as [-> | H]; [reflexivity |]); contradiction.
Qed.

Lemma transition_cycle_four_witness :
  (call Backward_step;; call Backward_step;; call Backward_step;; call Backward_step)
    default_stepper = (Ok tt, default_stepper, []).
Proof.
  apply (transition_cycle_four Backward_step default_stepper).
  vm_compute. split; [discriminate | reflexivity].
Defined.

(** C2: from any 4-bit pattern, a forward transition followed by a backward
    one, and a backward one followed by a forward one, restore the step
    state: the two transitions are inverse to each other. *)
Theorem forward_backward_inverse (self : BipolarStepper) :
  0 <= _step_state self < 16 ->
  (call Forward_step;; call Backward_step) self = (Ok tt, self, []) /\
  (call Backward_step;; call Forward_step) self = (Ok tt, self, []).
Proof.
  intros H. destruct self as [po sp de st ss dd ns]. simpl in H.
  apply four_bit_cases in H. rewrite !elem_of_cons, elem_of_nil in H.
  repeat (destruct H as [-> | H]; [split; reflexivity |]); contradiction.
Qed.

Lemma forward_backward_inverse_witness :
  (call Forward_step;; call Backward_step) default_stepper = (Ok tt, default_stepper, []) /\
  (call Backward_step;; call Forward_step) default_stepper = (Ok tt, default_stepper, []).
Proof.
  apply (forward_backward_inverse default_stepper).
  vm_compute. split; [discriminate | reflexivity].
Defined.

Section Tables.

Lemma speed_table_high : speed_table !! "high"%string = Some 0.003%Q.
Proof. reflexivity. Qed.

Lemma speed_table_other (s : string) :
  s ∉ ["high"; "medium"; "low"; "test"]%string -> speed_table !! s = None.
Proof.
  rewrite !not_elem_of_cons. intros (? & ? & ? & ? & _).
  unfold speed_table.
  rewrite !lookup_insert_ne by done. by apply lookup_singleton_ne.
Qed.

Lemma direction_table_forward : direction_table !! "forward"%string = Some Forward_step.
Proof. reflexivity. Qed.

Lemma direction_table_other (s : string) :
  s ∉ ["forward"; "backward"]%string -> direction_table !! s = None.
Proof.
  rewrite !not_elem_of_cons. intros (? & ? & _).
  unfold direction_table.
  rewrite !lookup_insert_ne by done. by apply lookup_singleton_ne.
Qed.

Lemma set_speed_run (speed : object) (self : BipolarStepper) (d0 : Q) :
  _speed self !! "high"%string = Some d0 ->
  set_speed speed self =
    (Ok tt,
     with_delay (match dict_getitem (_speed self) speed with
                 | Ok d => d
                 | Raise _ => d0
                 end) self,
     []).
Proof.
  intros H. unfold set_speed, try_except, mbind, M_bind, bind, attr, lift, assign.
  destruct (dict_getitem (_speed self) speed) as [d | e]; cbn.
  - reflexivity.
  - rewrite H. reflexivity.
Qed.

Lemma set_direction_run (direction : object) (self : BipolarStepper) (m0 : bound_method) :
  _dic_direction self !! "forward"%string = Some m0 ->
  set_direction direction self =
    (Ok tt,
     with_next_state (match dict_getitem (_dic_direction self) direction with
                      | Ok m => m
                      | Raise _ => m0
                      end) self,
     []).
Proof.
  intros H. unfold set_direction, try_except, mbind, M_bind, bind, attr, lift, assign.
  destruct (dict_getitem (_dic_direction self) direction) as [d | e]; cbn.
  - reflexivity.
  - rewrite H. reflexivity.
Qed.

Lemma construct_run (pin1 pin2 pin3 pin4 : Z) (speed direction : object) (steps : Z) :
  exists d m,
    construct pin1 pin2 pin3 pin4 speed direction steps =
      (Ok tt,
       mkStepper (Pinout.new pin1 pin2 pin3 pin4) speed_table d steps 12
                 direction_table m,
       [EvPrint "init motor"; EvPin pin1 false; EvPin pin2 false;
        EvPin pin3 false; EvPin pin4 false]).
Proof.
  cbv beta iota delta [construct __init__ mbind M_bind bind assign].
  rewrite (set_speed_run speed _ 0.003%Q) by exact speed_table_high.
  cbv beta iota.
  rewrite (set_direction_run direction _ Forward_step) by exact direction_table_forward.
  eexists _, _. reflexivity.
Qed.

End Tables.

Lemma construct_tables_intact (pin1 pin2 pin3 pin4 : Z) (speed direction : object)
    (steps : Z) :
  tables_intact (final (construct pin1 pin2 pin3 pin4 speed direction steps)).
Proof.
  destruct (construct_run pin1 pin2 pin3 pin4 speed direction steps) as (d & m & ->).
  split; reflexivity.
Qed.

(** C5: on an object whose tables are those of [__init__], [set_speed]
    stores 0.003 s (3 ms) for 'high', 0.008 s for 'medium', 0.016 s for
    'low', 0.5 s for 'test' and the 'high' delay for anything else;
    [set_direction] stores the forward rule for 'forward', the backward
    rule for 'backward' and the forward rule for anything else; neither
    raises, and neither touches another attribute or the board. *)
Theorem names_resolve_with_fallback (self : BipolarStepper) :
  tables_intact self ->
  set_speed (Str "high") self = (Ok tt, with_delay 0.003%Q self, []) /\
  set_speed (Str "medium") self = (Ok tt, with_delay 0.008%Q self, []) /\
  set_speed (Str "low") self = (Ok tt, with_delay 0.016%Q self, []) /\
  set_speed (Str "test") self = (Ok tt, with_delay 0.5%Q self, []) /\
  (forall speed : object,
      speed ∉ [Str "high"; Str "medium"; Str "low"; Str "test"] ->
      set_speed speed self = (Ok tt, with_delay 0.003%Q self, [])) /\
  set_direction (Str "forward") self = (Ok tt, with_next_state Forward_step self, []) /\
  set_direction (Str "backward") self = (Ok tt, with_next_state Backward_step self, []) /\
  (forall direction : object,
      direction ∉ [Str "forward"; Str "backward"] ->
      set_direction direction self = (Ok tt, with_next_state Forward_step self, [])).
Proof.
  intros [Hs Hd].
  assert (Hhigh : _speed self !! "high"%string = Some 0.003%Q)
    by (rewrite Hs; exact speed_table_high).
  assert (Hfwd : _dic_direction self !! "forward"%string = Some Forward_step)
    by (rewrite Hd; exact direction_table_forward).
  repeat split.
  1-4: rewrite (set_speed_run _ self _ Hhigh), Hs; reflexivity.
  - intros speed Hout. rewrite (set_speed_run speed self _ Hhigh), Hs.
    destruct speed as [s | n | | items]; try reflexivity.
    cbn [dict_getitem]. rewrite speed_table_other; [reflexivity |].
    intros Hin. apply Hout. rewrite !elem_of_cons, elem_of_nil in Hin.
    rewrite !elem_of_cons.
    destruct Hin as [-> | [-> | [-> | [-> | []]]]]; auto 6.
  - rewrite (set_direction_run _ self _ Hfwd), Hd; reflexivity.
  - rewrite (set_direction_run _ self _ Hfwd), Hd; reflexivity.
  - intros direction Hout. rewrite (set_direction_run direction self _ Hfwd), Hd.
    destruct direction as [s | n | | items]; try reflexivity.
    cbn [dict_getitem]. rewrite direction_table_other; [reflexivity |].
    intros Hin. apply Hout. rewrite !elem_of_cons, elem_of_nil in Hin.
    rewrite !elem_of_cons.
    destruct Hin as [-> | [-> | []]]; auto.
Qed.

Lemma names_resolve_with_fallback_witness :
  set_speed (Str "turbo") default_stepper = (Ok tt, with_delay 0.003%Q default_stepper, []) /\
  set_direction (Int 7) default_stepper
    = (Ok tt, with_next_state Forward_step default_stepper, []).
Proof.
  destruct (names_resolve_with_fallback default_stepper) as (_ & _ & _ & _ & Hs & _ & _ & Hd).
  - split; reflexivity.
  - split.
    + apply Hs. rewrite !elem_of_cons, elem_of_nil. intros [H | [H | [H | [H | []]]]]; discriminate H.
    + apply Hd. rewrite !elem_of_cons, elem_of_nil. intros [H | [H | []]]; discriminate H.
Defined.

Section Reachability.

Lemma construct_step_state (pin1 pin2 pin3 pin4 : Z) (speed direction : object)
    (steps : Z) :
  _step_state (final (construct pin1 pin2 pin3 pin4 speed direction steps)) = 12.
Proof.
  destruct (construct_run pin1 pin2 pin3 pin4 speed direction steps) as (d & m & ->).
  reflexivity.
Qed.

Lemma call_keeps_canonical (d : bound_method) (self : BipolarStepper) :
  _step_state self ∈ canonical_phases ->
  _step_state (final (call d self)) ∈ canonical_phases.
Proof.
  destruct self as [po sp de st ss dd ns]. unfold canonical_phases. cbn [_step_state].
  rewrite !elem_of_cons, elem_of_nil.
  intros [-> | [-> | [-> | [-> | []]]]]; destruct d; vm_compute; auto.
Qed.

Lemma reachable_canonical (self : BipolarStepper) :
  reachable self -> _step_state self ∈ canonical_phases.
Proof.
  induction 1 as [p1 p2 p3 p4 speed direction steps | d self Hr IH].
  - rewrite construct_step_state. unfold canonical_phases. apply elem_of_cons. by left.
  - by apply call_keeps_canonical.
Qed.

Lemma reachable_default : reachable default_stepper.
Proof. apply reachable_init. Qed.

Lemma canonical_reached (p : Z) :
  p ∈ canonical_phases -> reachable_pattern p.
Proof.
  unfold canonical_phases. rewrite !elem_of_cons, elem_of_nil.
  intros [-> | [-> | [-> | [-> | []]]]].
  - exists default_stepper. split; [apply reachable_default | reflexivity].
  - exists (final (call Forward_step default_stepper)).
    split; [apply reachable_step, reachable_default | reflexivity].
  - exists (final (call Forward_step (final (call Forward_step default_stepper)))).
    split; [do 2 apply reachable_step; apply reachable_default | reflexivity].
  - exists (final (call Backward_step default_stepper)).
    split; [apply reachable_step, reachable_default | reflexivity].
Qed.

Lemma canonical_two_adjacent_bits (p : Z) :
  p ∈ canonical_phases ->
  0 <= p < 16 /\ bits_set p = 2%nat /\ adjacent_pair p = true.
Proof.
  unfold canonical_phases. rewrite !elem_of_cons, elem_of_nil.
  intros [-> | [-> | [-> | [-> | []]]]]; (split; [lia | split; reflexivity]).
Qed.

End Reachability.

(** C8: the step states reached from the initial pattern 1100 by forward
    and backward transitions are exactly 1100, 0110, 0011 and 1001, and
    each of them has exactly two bits set, on neighbouring positions of
    the 4-position cycle. *)
Theorem reachable_patterns_are_phases (p : Z) :
  (reachable_pattern p <-> p ∈ canonical_phases) /\
  (reachable_pattern p ->
   0 <= p < 16 /\ bits_set p = 2%nat /\ adjacent_pair p = true).
Proof.
  assert (Hcan : reachable_pattern p -> p ∈ canonical_phases).
  { intros (self & Hr & <-). by apply reachable_canonical. }
  split; [split; [exact Hcan | apply canonical_reached] |].
  intros Hp. by apply canonical_two_adjacent_bits, Hcan.
Qed.

Lemma reachable_patterns_are_phases_witness :
  reachable_pattern 9 /\ 0 <= 9 < 16 /\ bits_set 9 = 2%nat /\ adjacent_pair 9 = true.
Proof.
  assert (H : reachable_pattern 9).
  { exists (final (call Backward_step default_stepper)).
    split; [apply reachable_step, reachable_init | reflexivity]. }
  split; [exact H | exact (proj2 (reachable_patterns_are_phases 9) H)].
Defined.

(** C9: [sleep] drives the four pin outputs low, raises nothing, and
    leaves every attribute of the object as it was: the step state, the
    delay, the direction, the step count per turn and both tables. *)
Theorem sleep_releases_pins_only (self : BipolarStepper) :
  outcome (sleep self) = Ok tt /\
  final (sleep self) = with_pinout (released (_pinout self)) self /\
  level (Pinout.pin1 (_pinout (final (sleep self)))) = false /\
  level (Pinout.pin2 (_pinout (final (sleep self)))) = false /\
  level (Pinout.pin3 (_pinout (final (sleep self)))) = false /\
  level (Pinout.pin4 (_pinout (final (sleep self)))) = false /\
  _step_state (final (sleep self)) = _step_state self /\
  _delay (final (sleep self)) = _delay self /\
  _next_state (final (sleep self)) = _next_state self /\
  _steps360 (final (sleep self)) = _steps360 self /\
  _speed (final (sleep self)) = _speed self /\
  _dic_direction (final (sleep self)) = _dic_direction self.
Proof.
  destruct self as [[[g1 l1] [g2 l2] [g3 l3] [g4 l4]] sp de st ss dd ns].
  repeat split.
Qed.

Section Stepping.

Lemma range_nonpositive (n : Z) : n <= 0 -> range n = [].
Proof. intros H. unfold range. by rewrite Z2Nat.nonpos. Qed.

Lemma advance_run (self : BipolarStepper) :
  exists self' e1 e2 e3 e4,
    advance self = (Ok tt, self', [e1; e2; e3; e4; EvSleep (_delay self)]) /\
    is_pin e1 = true /\ is_pin e2 = true /\ is_pin e3 = true /\ is_pin e4 = true.
Proof.
  destruct self as [po sp de st ss dd ns].
  destruct ns; eexists _, _, _, _, _; (split; [reflexivity | repeat split]).
Qed.

Lemma advances_step (k : nat) (self : BipolarStepper) :
  advances (S k) self = (advance ≫= fun _ => advances k) self.
Proof. reflexivity. Qed.

Lemma advances_log (k : nat) (self : BipolarStepper) :
  outcome (advances k self) = Ok tt /\
  sleeps (calls (advances k self)) = k /\
  pin_writes (calls (advances k self)) = (4 * k)%nat.
Proof.
  revert self. induction k as [| k IH]; intros self; [repeat split |].
  rewrite advances_step. unfold mbind, M_bind, bind.
  destruct (advance_run self) as (self' & e1 & e2 & e3 & e4 & -> & H1 & H2 & H3 & H4).
  specialize (IH self').
  destruct (advances k self') as [[r s2] t2]. cbn [outcome calls fst snd] in IH |- *.
  destruct IH as (Hr & Hs & Hp). split; [exact Hr |].
  unfold sleeps, pin_writes in *. rewrite !List.filter_app, !length_app, Hs, Hp.
  destruct e1, e2, e3, e4; try discriminate. split; cbn; lia.
Qed.

Lemma for_in_const_advances {X : Type} (xs : list X) (self : BipolarStepper) :
  for_in xs (fun _ _ => advance) tt self = advances (length xs) self.
Proof.
  revert self. induction xs as [| x xs IH]; intros self; [reflexivity |].
  cbn [for_in length]. rewrite advances_step. unfold mbind, M_bind, bind.
  destruct (advance self) as [[[[] | e] s1] t1]; [| reflexivity].
  by rewrite IH.
Qed.

Lemma next_steps_advances (n : Z) (self : BipolarStepper) :
  next_steps n self = advances (Z.to_nat n) self.
Proof.
  unfold next_steps. rewrite for_in_const_advances.
  unfold range. by rewrite length_fmap, length_seq.
Qed.

Lemma next_angle_run (angle : Z) (self : BipolarStepper) :
  next_angle angle self = next_steps (_steps360 self * angle / 360) self.
Proof.
  unfold next_angle, steps360, angle_steps, floordiv, mbind, M_bind, bind, attr, lift.
  cbn [Z.eqb]. destruct (next_steps _ self) as [[r s2] t2]. reflexivity.
Qed.

Lemma next_steps_empty (n : Z) (self : BipolarStepper) :
  n <= 0 -> next_steps n self = (Ok tt, self, []).
Proof.
  intros H. unfold next_steps. by rewrite range_nonpositive.
Qed.

Lemma floor_and_truncation (p : Z) :
  360 * (p / 360) <= p < 360 * (p / 360) + 360 /\
  Z.quot p 360 - p / 360 = (if (p <? 0) && negb (p mod 360 =? 0) then 1 else 0).
Proof.
  pose proof (Z.div_mod p 360 ltac:(lia)) as Hd.
  pose proof (Z.mod_pos_bound p 360 ltac:(lia)) as Hm.
  pose proof (Z.quot_rem' p 360) as Hq.
  split; [lia |].
  destruct (Z.ltb_spec p 0) as [Hneg | Hpos]; cbn [andb].
  - pose proof (Z.rem_bound_pos_neg p 360 ltac:(lia) ltac:(lia)) as Hr.
    destruct (Z.eqb_spec (p mod 360) 0); cbn [negb]; lia.
  - pose proof (Z.rem_bound_pos p 360 ltac:(lia) ltac:(lia)) as Hr. lia.
Qed.

End Stepping.

(** C10: [next_steps(n)] with [n <= 0] does nothing at all: no
    transition, no pin write, no delay, the object is left as it was and
    nothing is raised. *)
Theorem next_steps_nonpositive_noop (n : Z) (self : BipolarStepper) :
  n <= 0 -> next_steps n self = (Ok tt, self, []).
Proof.
  exact (next_steps_empty n self).
Qed.

Lemma next_steps_nonpositive_noop_witness :
  next_steps (-5) default_stepper = (Ok tt, default_stepper, []).
Proof.
  apply (next_steps_nonpositive_noop (-5) default_stepper). lia.
Defined.

(** C6: with 200 steps per revolution, [next_angle(90)] is 50 single-step
    advances, neither more nor fewer: its log shows 50 delays and 200 pin
    writes. *)
Theorem next_angle_quarter_turn (self : BipolarStepper) :
  _steps360 self = 200 ->
  next_angle 90 self = advances 50 self /\
  outcome (next_angle 90 self) = Ok tt /\
  sleeps (calls (next_angle 90 self)) = 50%nat /\
  pin_writes (calls (next_angle 90 self)) = 200%nat.
Proof.
  intros H.
  assert (E : next_angle 90 self = advances 50 self).
  { rewrite next_angle_run, H, next_steps_advances. reflexivity. }
  rewrite E. split; [reflexivity |]. apply (advances_log 50 self).
Qed.

Lemma next_angle_quarter_turn_witness :
  next_angle 90 default_stepper = advances 50 default_stepper /\
  outcome (next_angle 90 default_stepper) = Ok tt /\
  sleeps (calls (next_angle 90 default_stepper)) = 50%nat /\
  pin_writes (calls (next_angle 90 default_stepper)) = 200%nat.
Proof.
  apply (next_angle_quarter_turn default_stepper). reflexivity.
Defined.

(** C7, as the code has it: for every integer angle, [next_angle] hands
    to [next_steps] the quotient of [steps360 * angle] by 360 rounded
    toward minus infinity (Python's [//]).  That quotient is the one
    truncated toward zero when the product is non-negative or a multiple
    of 360, and one less than it otherwise. *)
Theorem next_angle_floor_count (angle : Z) (self : BipolarStepper) :
  exists n : Z,
    angle_steps (_steps360 self) angle = Ok n /\
    next_angle angle self = next_steps n self /\
    360 * n <= _steps360 self * angle < 360 * n + 360 /\
    Z.quot (_steps360 self * angle) 360 - n =
      (if andb (_steps360 self * angle <? 0)
               (negb ((_steps360 self * angle) mod 360 =? 0))
       then 1 else 0).
Proof.
  exists (_steps360 self * angle / 360).
  split; [reflexivity |]. split; [apply next_angle_run |].
  apply floor_and_truncation.
Qed.

(** C7, as stated, fails: with 200 steps per revolution and an angle of
    -1 degree the count is -1, while truncation toward zero gives 0. *)
Lemma next_angle_negative_not_truncated :
  _steps360 default_stepper = 200 /\
  angle_steps (_steps360 default_stepper) (-1) = Ok (-1) /\
  angle_steps (_steps360 default_stepper) (-1)
    <> Ok (Z.quot (_steps360 default_stepper * -1) 360).
Proof.
  split; [reflexivity |]. split; [reflexivity |]. discriminate.
Qed.

(** The difference between the two quotients cannot be seen from outside:
    where they differ both are non-positive, and [next_steps] then does
    nothing. *)
Remark next_angle_as_if_truncated (angle : Z) (self : BipolarStepper) :
  next_angle angle self = next_steps (Z.quot (_steps360 self * angle) 360) self.
Proof.
  rewrite next_angle_run.
  destruct (Z.le_gt_cases 0 (_steps360 self * angle)) as [Hpos | Hneg].
  - by rewrite Z.quot_div_nonneg by lia.
  - pose proof (floor_and_truncation (_steps360 self * angle)) as [Hf _].
    pose proof (Z.quot_rem' (_steps360 self * angle) 360) as Hq.
    pose proof (Z.rem_bound_pos_neg (_steps360 self * angle) 360 ltac:(lia) ltac:(lia)) as Hr.
    rewrite !next_steps_empty by lia. reflexivity.
Qed.

Section Partition.

Lemma for_in_app {X L : Type} (xs ys : list X) (body : X -> L -> M L) (acc : L)
    (self : BipolarStepper) :
  for_in (xs ++ ys) body acc self = (for_in xs body acc ≫= for_in ys body) self.
Proof.
  revert acc self. induction xs as [| x xs IH]; intros acc self.
  - cbn [app for_in]. unfold mbind, M_bind, bind, ret.
    by destruct (for_in ys body acc self) as [[r s] t].
  - cbn [app for_in]. unfold mbind, M_bind, bind in *.
    destruct (body x acc self) as [[[a | e] s1] t1]; [| reflexivity].
    rewrite IH. destruct (for_in xs body a s1) as [[[a' | e'] s2] t2]; [| reflexivity].
    destruct (for_in ys body a' s2) as [[r s3] t3]. by rewrite app_assoc.
Qed.

Lemma index_from_end (m k : nat) (q x : Z) :
  index (replicate (S m) q ++ replicate k x) (-1 - Z.of_nat k) = Ok m.
Proof.
  unfold index. rewrite length_app, !length_replicate.
  destruct (Z.ltb_spec (-1 - Z.of_nat k) 0); [| lia].
  destruct (Z.leb_spec 0 (-1 - Z.of_nat k + Z.of_nat (S m + k))); [| lia].
  destruct (Z.ltb_spec (-1 - Z.of_nat k + Z.of_nat (S m + k)) (Z.of_nat (S m + k))); [| lia].
  cbn [andb]. f_equal. lia.
Qed.

Lemma bump_run (m k : nat) (q : Z) (self : BipolarStepper) :
  (x ← lift (list_getitem (replicate (S m) q ++ replicate k (q + 1)) (-1 - Z.of_nat k));
   lift (list_setitem (replicate (S m) q ++ replicate k (q + 1)) (-1 - Z.of_nat k) (x + 1)))
    self =
    (Ok (replicate m q ++ replicate (S k) (q + 1)), self, []).
Proof.
  unfold mbind, M_bind, bind, lift, list_getitem, list_setitem.
  rewrite index_from_end.
  rewrite lookup_app_l by (rewrite length_replicate; lia).
  rewrite lookup_replicate_2 by lia.
  rewrite insert_app_l by (rewrite length_replicate; lia).
  rewrite replicate_S_end at 1.
  replace m with (length (replicate m q) + 0)%nat at 1 by (rewrite length_replicate; lia).
  rewrite insert_app_r. cbn [list_insert insert].
  by rewrite <- app_assoc.
Qed.

(** After [k] turns of the loop [l[-1-i] += 1] the last [k] entries have
    been raised. *)
Lemma split_loop (n k : nat) (q : Z) (self : BipolarStepper) :
  (k <= n)%nat ->
  for_in (Z.of_nat <$> seq 0 k)
         (fun (i : Z) (l : list Z) =>
            x ← lift (list_getitem l (-1 - i)); lift (list_setitem l (-1 - i) (x + 1)))
         (replicate n q) self =
    (Ok (replicate (n - k) q ++ replicate k (q + 1)), self, []).
Proof.
  induction k as [| k IH]; intros Hk.
  - cbn. by rewrite Nat.sub_0_r, app_nil_r.
  - rewrite seq_S, fmap_app, for_in_app. unfold mbind at 1, M_bind at 1, bind at 1.
    rewrite IH by lia. cbn [fmap list_fmap for_in Nat.add].
    replace (n - k)%nat with (S (n - S k)) by lia.
    unfold mbind at 1, M_bind at 1, bind at 1. rewrite bump_run. reflexivity.
Qed.

Lemma list_mul_singleton {A : Type} (n : Z) (x : A) :
  list_mul n [x] = replicate (Z.to_nat n) x.
Proof.
  unfold list_mul. induction (Z.to_nat n) as [| k IH]; [reflexivity |].
  cbn [replicate mjoin list_join app]. by rewrite <- IH.
Qed.

Lemma sum_app (l1 l2 : list Z) : sum (l1 ++ l2) = sum l1 + sum l2.
Proof. unfold sum. induction l1 as [| x l1 IH]; cbn; lia. Qed.

Lemma sum_replicate (k : nat) (x : Z) : sum (replicate k x) = Z.of_nat k * x.
Proof. unfold sum. induction k as [| k IH]; cbn [replicate foldr]; lia. Qed.

(** What [split_steps] returns for a positive number of parts. *)
Lemma split_steps_run (nsplits : Z) (self : BipolarStepper) :
  0 < nsplits ->
  split_steps nsplits self =
    (Ok (replicate (Z.to_nat (nsplits - _steps360 self mod nsplits))
                   (_steps360 self / nsplits)
         ++ replicate (Z.to_nat (_steps360 self mod nsplits))
                      (_steps360 self / nsplits + 1)),
     self, []).
Proof.
  intros Hn.
  pose proof (Z.mod_pos_bound (_steps360 self) nsplits Hn) as Hr.
  unfold split_steps, steps360, floordiv, modulo.
  destruct (Z.eqb_spec nsplits 0) as [-> | _]; [lia |].
  unfold mbind at 1 2 3 4, M_bind at 1 2 3 4, bind at 1 2 3 4, attr, lift.
  unfold range. rewrite list_mul_singleton.
  rewrite split_loop by lia.
  replace (Z.to_nat nsplits - Z.to_nat (_steps360 self mod nsplits))%nat
    with (Z.to_nat (nsplits - _steps360 self mod nsplits)) by lia.
  reflexivity.
Qed.

(** What it does when the number of parts is negative. *)
Lemma split_steps_negative (nsplits : Z) (self : BipolarStepper) :
  nsplits < 0 -> split_steps nsplits self = (Ok [], self, []).
Proof.
  intros Hn.
  pose proof (Z.mod_neg_bound (_steps360 self) nsplits Hn) as Hr.
  unfold split_steps, steps360, floordiv, modulo.
  destruct (Z.eqb_spec nsplits 0) as [-> | _]; [lia |].
  unfold mbind at 1 2 3 4, M_bind at 1 2 3 4, bind at 1 2 3 4, attr, lift.
  unfold range. rewrite list_mul_singleton, !Z2Nat.nonpos by lia. reflexivity.
Qed.

Lemma split_steps_zero (self : BipolarStepper) :
  split_steps 0 self = (Raise ZeroDivisionError, self, []).
Proof. reflexivity. Qed.

End Partition.

(** C3: for a positive [nsplits], [split_steps] returns [nsplits]
    integers that add up to [steps360]; each is the floor of
    [steps360 / nsplits] or one more, so no two differ by more than 1; and
    the ones raised by 1 are the last [steps360 mod nsplits] entries.
    Nothing is raised and the object is not touched. *)
Theorem split_steps_partition (nsplits : Z) (self : BipolarStepper) :
  0 < nsplits ->
  exists l : list Z,
    split_steps nsplits self = (Ok l, self, []) /\
    Z.of_nat (length l) = nsplits /\
    sum l = _steps360 self /\
    Forall (fun x => x = _steps360 self / nsplits \/ x = _steps360 self / nsplits + 1) l /\
    (forall x y : Z, x ∈ l -> y ∈ l -> x - y <= 1) /\
    l = replicate (Z.to_nat (nsplits - _steps360 self mod nsplits))
                  (_steps360 self / nsplits)
        ++ replicate (Z.to_nat (_steps360 self mod nsplits))
                     (_steps360 self / nsplits + 1).
Proof.
  intros Hn.
  pose proof (Z.mod_pos_bound (_steps360 self) nsplits Hn) as Hr.
  pose proof (Z.div_mod (_steps360 self) nsplits ltac:(lia)) as Hd.
  eexists. split; [by apply split_steps_run |].
  set (q := _steps360 self / nsplits) in *.
  set (r := _steps360 self mod nsplits) in *.
  assert (Hall : Forall (fun x => x = q \/ x = q + 1)
                        (replicate (Z.to_nat (nsplits - r)) q
                         ++ replicate (Z.to_nat r) (q + 1))).
  { apply Forall_app. split; apply Forall_replicate; auto. }
  split; [rewrite length_app, !length_replicate; lia |].
  split; [rewrite sum_app, !sum_replicate, !Z2Nat.id by lia; lia |].
  split; [exact Hall |]. split; [| reflexivity].
  intros x y Hx Hy. rewrite Forall_forall in Hall.
  destruct (Hall x Hx), (Hall y Hy); lia.
Qed.

Lemma split_steps_partition_witness :
  exists l : list Z,
    split_steps 7 default_stepper = (Ok l, default_stepper, []) /\
    Z.of_nat (length l) = 7 /\
    sum l = 200 /\
    Forall (fun x => x = 200 / 7 \/ x = 200 / 7 + 1) l /\
    (forall x y : Z, x ∈ l -> y ∈ l -> x - y <= 1) /\
    l = replicate (Z.to_nat (7 - 200 mod 7)) (200 / 7)
        ++ replicate (Z.to_nat (200 mod 7)) (200 / 7 + 1).
Proof.
  apply (split_steps_partition 7 default_stepper). lia.
Defined.

(** C4, as the code has it: a zero [nsplits] makes [split_steps] raise
    [ZeroDivisionError] out of its first division, and a negative
    [nsplits] makes it return the empty list; the object is not touched. *)
Theorem split_steps_nonpositive (nsplits : Z) (self : BipolarStepper) :
  nsplits <= 0 ->
  split_steps nsplits self =
    (if nsplits =? 0 then Raise ZeroDivisionError else Ok [], self, []).
Proof.
  intros Hn. destruct (Z.eqb_spec nsplits 0) as [-> | Hne].
  - apply split_steps_zero.
  - apply split_steps_negative. lia.
Qed.

Lemma split_steps_nonpositive_witness :
  split_steps (-3) default_stepper = (Ok [], default_stepper, []).
Proof.
  apply (split_steps_nonpositive (-3) default_stepper). lia.
Defined.

(** C4, as stated, fails: [split_steps(0)] ends in a division fault, not
    in a rejection of the argument, and [split_steps(-3)] raises nothing
    and returns a list that is not a partition. *)
Lemma split_steps_nonpositive_not_rejected :
  outcome (split_steps 0 default_stepper) = Raise ZeroDivisionError /\
  ~ invalid_argument (outcome (split_steps 0 default_stepper)) /\
  outcome (split_steps (-3) default_stepper) = Ok [] /\
  ~ invalid_argument (outcome (split_steps (-3) default_stepper)).
Proof.
  unfold invalid_argument. repeat split; try reflexivity; discriminate.
Qed.

Section Lifetime.

Lemma call_sound (d : bound_method) (self : BipolarStepper) :
  sound self -> sound (final (call d self)).
Proof.
  intros [Ht Hc]. split; [| by apply call_keeps_canonical].
  destruct (call_frame d self) as [s ->]. exact Ht.
Qed.

Lemma advance_final (self : BipolarStepper) :
  exists po, final (advance self) = with_pinout po (final (call (_next_state self) self)).
Proof.
  destruct self as [po sp de st ss dd ns]. destruct ns; eexists; reflexivity.
Qed.

Lemma advance_sound (self : BipolarStepper) :
  sound self -> sound (final (advance self)).
Proof.
  intros H. destruct (advance_final self) as [po ->].
  apply (call_sound (_next_state self)) in H. exact H.
Qed.

Lemma advances_sound (k : nat) (self : BipolarStepper) :
  sound self -> sound (final (advances k self)).
Proof.
  revert self. induction k as [| k IH]; intros self H; [exact H |].
  rewrite advances_step. unfold mbind, M_bind, bind.
  pose proof (advance_sound self H) as Ha.
  destruct (advance_run self) as (self' & e1 & e2 & e3 & e4 & E & _).
  rewrite E in Ha |- *. specialize (IH self' Ha).
  by destruct (advances k self') as [[r s2] t2].
Qed.

Lemma serve_sound (r : request) (self : BipolarStepper) :
  sound self -> sound (serve r self).
Proof.
  intros H. pose proof H as [[Hs Hd] Hc].
  destruct r as [speed | direction | nsteps | angle | | nsplits]; cbn [serve].
  - rewrite (set_speed_run speed self 0.003%Q)
      by (rewrite Hs; exact speed_table_high). exact H.
  - rewrite (set_direction_run direction self Forward_step)
      by (rewrite Hd; exact direction_table_forward). exact H.
  - rewrite next_steps_advances. by apply advances_sound.
  - rewrite next_angle_run, next_steps_advances. by apply advances_sound.
  - destruct self as [[[g1 l1] [g2 l2] [g3 l3] [g4 l4]] sp de st ss dd ns]. exact H.
  - destruct (Z.lt_trichotomy nsplits 0) as [Hn | [-> | Hn]].
    + by rewrite split_steps_negative.
    + exact H.
    + by rewrite split_steps_run.
Qed.

(** Whatever public calls were made, in whatever order and with whatever
    arguments, the tables are those of [__init__] and the step state is
    one of the four phases. *)
Lemma in_use_sound (self : BipolarStepper) : in_use self -> sound self.
Proof.
  induction 1 as [p1 p2 p3 p4 speed direction steps | r self Hu IH].
  - split; [apply construct_tables_intact |].
    rewrite construct_step_state. unfold canonical_phases. apply elem_of_cons. by left.
  - by apply serve_sound.
Qed.

End Lifetime.

(** ** The run of [test_motor.py] *)

Example test_motor_split :
  outcome (split_steps 7 default_stepper) = Ok [28; 28; 28; 29; 29; 29; 29].
Proof. reflexivity. Qed.

Example test_motor_two_steps :
  calls (next_steps 2 default_stepper) =
    [EvPin 16 false; EvPin 17 true; EvPin 14 true; EvPin 15 false; EvSleep 0.003%Q;
     EvPin 16 false; EvPin 17 false; EvPin 14 true; EvPin 15 true; EvSleep 0.003%Q] /\
  _step_state (final (next_steps 2 default_stepper)) = 3.
Proof. split; reflexivity. Qed.

Example constructed_released :
  calls (construct 17 16 15 14 (Str "medium") (Str "forward") 200) =
    [EvPrint "init motor"; EvPin 17 false; EvPin 16 false; EvPin 15 false; EvPin 14 false] /\
  _delay (final (construct 17 16 15 14 (Str "medium") (Str "forward") 200)) = 0.008%Q.
Proof. split; reflexivity. Qed.

(** ** Further properties *)

Section Phases.

Lemma call_shift (d : bound_method) (self : BipolarStepper) :
  call d self = (Ok tt, with_step_state (shift d (_step_state self)) self, []).
Proof. destruct self as [po sp de st ss dd ns]. destruct d; reflexivity. Qed.

Lemma shift_four_bit (d : bound_method) (s : Z) :
  0 <= s < 16 -> 0 <= shift d s < 16.
Proof.
  intros H. apply four_bit_cases in H. rewrite !elem_of_cons, elem_of_nil in H.
  destruct d; repeat (destruct H as [-> | H]; [vm_compute; split; [discriminate | reflexivity] |]);
    contradiction.
Qed.

Lemma shift_back (s : Z) :
  0 <= s < 16 ->
  shift Backward_step (shift Forward_step s) = s /\
  shift Forward_step (shift Backward_step s) = s.
Proof.
  intros H. apply four_bit_cases in H. rewrite !elem_of_cons, elem_of_nil in H.
  repeat (destruct H as [-> | H]; [split; reflexivity |]); contradiction.
Qed.

Lemma shift_four_times (d : bound_method) (s : Z) :
  0 <= s < 16 -> shift d (shift d (shift d (shift d s))) = s.
Proof.
  intros H. apply four_bit_cases in H. rewrite !elem_of_cons, elem_of_nil in H.
  destruct d; repeat (destruct H as [-> | H]; [reflexivity |]); contradiction.
Qed.

Lemma shift_rotates (d : bound_method) (s i : Z) :
  0 <= s < 16 -> 0 <= i < 4 ->
  Z.testbit (shift d s) i =
    Z.testbit s (match d with
                 | Forward_step => (i + 1) mod 4
                 | Backward_step => (i - 1) mod 4
                 end).
Proof.
  intros H Hi. apply four_bit_cases in H. rewrite !elem_of_cons, elem_of_nil in H.
  assert (Hc : i = 0 \/ i = 1 \/ i = 2 \/ i = 3) by lia.
  destruct d;
    repeat (destruct H as [-> | H];
            [destruct Hc as [-> | [-> | [-> | ->]]]; reflexivity |]);
    contradiction.
Qed.

Lemma iter_shift_four_bit (d : bound_method) (k : nat) (s : Z) :
  0 <= s < 16 -> 0 <= Nat.iter k (shift d) s < 16.
Proof.
  intros H. induction k as [| k IH]; [exact H |].
  rewrite Nat.iter_succ. by apply shift_four_bit.
Qed.

Lemma iter_shift_period (d : bound_method) (k : nat) (s : Z) :
  0 <= s < 16 -> Nat.iter (k + 4) (shift d) s = Nat.iter k (shift d) s.
Proof.
  intros H. rewrite Nat.iter_add.
  change (Nat.iter 4 (shift d) s) with (shift d (shift d (shift d (shift d s)))).
  by rewrite shift_four_times.
Qed.

Lemma iter_shift_back (k : nat) (s : Z) :
  0 <= s < 16 ->
  Nat.iter k (shift Backward_step) (Nat.iter k (shift Forward_step) s) = s /\
  Nat.iter k (shift Forward_step) (Nat.iter k (shift Backward_step) s) = s.
Proof.
  intros H. induction k as [| k [IHf IHb]]; [split; reflexivity |].
  split.
  - rewrite (Nat.iter_succ_r k (shift Backward_step)),
      (Nat.iter_succ k (shift Forward_step)).
    destruct (shift_back (Nat.iter k (shift Forward_step) s)) as [E _];
      [by apply iter_shift_four_bit |].
    by rewrite E.
  - rewrite (Nat.iter_succ_r k (shift Forward_step)),
      (Nat.iter_succ k (shift Backward_step)).
    destruct (shift_back (Nat.iter k (shift Backward_step) s)) as [_ E];
      [by apply iter_shift_four_bit |].
    by rewrite E.
Qed.

End Phases.

Section Driving.

Lemma truthy_land_bit (s k : Z) :
  0 <= k -> truthy (Z.land s (2 ^ k)) = Z.testbit s k.
Proof.
  intros Hk.
  assert (E : Z.land s (2 ^ k) = if Z.testbit s k then 2 ^ k else 0).
  { apply Z.bits_inj'. intros n Hn.
    rewrite Z.land_spec, Z.pow2_bits_eqb by exact Hk.
    destruct (Z.eqb_spec k n) as [-> | Hne].
    - destruct (Z.testbit s n); [by rewrite Z.pow2_bits_true | by rewrite Z.bits_0].
    - rewrite andb_false_r.
      destruct (Z.testbit s k); [by rewrite Z.pow2_bits_false | by rewrite Z.bits_0]. }
  rewrite E. unfold truthy.
  destruct (Z.testbit s k); [| reflexivity].
  destruct (Z.eqb_spec (2 ^ k) 0) as [H0 | _]; [| reflexivity].
  pose proof (Z.pow_pos_nonneg 2 k ltac:(lia) Hk). lia.
Qed.

Lemma move_motor_run (self : BipolarStepper) :
  _move_motor self =
    (Ok tt,
     with_pinout (driven (_step_state self) (_pinout self)) self,
     step_log self (_step_state self)).
Proof.
  destruct self as [[[g1 l1] [g2 l2] [g3 l3] [g4 l4]] sp de st ss dd ns].
  unfold _move_motor, mbind, M_bind, bind, attr, pin_value, emit, step_log, driven,
    with_pinout, Pin_value.
  cbn -[Z.land Z.testbit truthy].
  rewrite <- (truthy_land_bit ss 3), <- (truthy_land_bit ss 2),
    <- (truthy_land_bit ss 1), <- (truthy_land_bit ss 0) by lia.
  reflexivity.
Qed.

Lemma advance_exact (self : BipolarStepper) :
  advance self = (Ok tt, stepped 1 self, stepped_log 1 self).
Proof.
  unfold advance, mbind, M_bind, bind, attr.
  rewrite call_shift, move_motor_run. reflexivity.
Qed.

Lemma stepped_succ (k : nat) (self : BipolarStepper) :
  stepped k (stepped 1 self) = stepped (S k) self.
Proof.
  destruct k as [| k]; [reflexivity |].
  unfold stepped, phase_after.
  rewrite (Nat.iter_succ_r (S k)). reflexivity.
Qed.

Lemma stepped_log_succ (k : nat) (self : BipolarStepper) :
  stepped_log 1 self ++ stepped_log k (stepped 1 self) = stepped_log (S k) self.
Proof.
  unfold stepped_log. cbn [seq fmap list_fmap mjoin list_join].
  rewrite app_nil_r. f_equal. rewrite <- fmap_S_seq, <- list_fmap_compose.
  f_equal. apply list_fmap_ext. intros _ i _. cbn [compose].
  unfold phase_after. rewrite (Nat.iter_succ_r (S i)). reflexivity.
Qed.

(** [k] advances, in full: the object they leave and the calls they make. *)
Lemma advances_exact (k : nat) (self : BipolarStepper) :
  advances k self = (Ok tt, stepped k self, stepped_log k self).
Proof.
  revert self. induction k as [| k IH]; intros self; [reflexivity |].
  rewrite advances_step. unfold mbind, M_bind, bind.
  rewrite advance_exact, IH, stepped_succ, stepped_log_succ. reflexivity.
Qed.

Lemma next_steps_exact (n : Z) (self : BipolarStepper) :
  next_steps n self =
    (Ok tt, stepped (Z.to_nat n) self, stepped_log (Z.to_nat n) self).
Proof. rewrite next_steps_advances. apply advances_exact. Qed.

End Driving.

Section Composition.

Lemma bind_run {A B : Type} (m : M A) (k : A -> M B) (self self1 : BipolarStepper)
    (a : A) (t1 : list event) :
  m self = (Ok a, self1, t1) ->
  (m ≫= k) self =
    (outcome (k a self1), final (k a self1), t1 ++ calls (k a self1)).
Proof.
  intros E. unfold mbind, M_bind, bind. rewrite E.
  by destruct (k a self1) as [[r s2] t2].
Qed.

Lemma stepped_add (a b : nat) (self : BipolarStepper) :
  stepped b (stepped a self) = stepped (a + b) self.
Proof.
  revert self. induction a as [| a IH]; intros self; [reflexivity |].
  rewrite <- (stepped_succ a self), (IH (stepped 1 self)). cbn [Nat.add].
  by rewrite stepped_succ.
Qed.

Lemma stepped_log_add (a b : nat) (self : BipolarStepper) :
  stepped_log a self ++ stepped_log b (stepped a self) = stepped_log (a + b) self.
Proof.
  revert self. induction a as [| a IH]; intros self; [reflexivity |].
  rewrite <- (stepped_log_succ a self), <- (stepped_succ a self), <- app_assoc.
  rewrite (IH (stepped 1 self)). cbn [Nat.add]. by rewrite stepped_log_succ.
Qed.

Lemma advances_add (a b : nat) (self : BipolarStepper) :
  advances (a + b) self = (advances a ≫= fun _ => advances b) self.
Proof.
  rewrite (bind_run _ _ _ _ _ _ (advances_exact a self)).
  rewrite !advances_exact. cbn [outcome final calls fst snd].
  by rewrite stepped_add, stepped_log_add.
Qed.

Lemma stepped_phase (k : nat) (self : BipolarStepper) :
  _step_state (stepped k self) = phase_after k self.
Proof. destruct k; reflexivity. Qed.

Lemma stepped_frame (k : nat) (self : BipolarStepper) :
  _delay (stepped k self) = _delay self /\
  _next_state (stepped k self) = _next_state self /\
  _steps360 (stepped k self) = _steps360 self /\
  _speed (stepped k self) = _speed self /\
  _dic_direction (stepped k self) = _dic_direction self /\
  gpio (Pinout.pin1 (_pinout (stepped k self))) = gpio (Pinout.pin1 (_pinout self)) /\
  gpio (Pinout.pin2 (_pinout (stepped k self))) = gpio (Pinout.pin2 (_pinout self)) /\
  gpio (Pinout.pin3 (_pinout (stepped k self))) = gpio (Pinout.pin3 (_pinout self)) /\
  gpio (Pinout.pin4 (_pinout (stepped k self))) = gpio (Pinout.pin4 (_pinout self)).
Proof. destruct k; repeat split. Qed.

Lemma sleep_run (self : BipolarStepper) :
  sleep self =
    (Ok tt, with_pinout (released (_pinout self)) self,
     [EvPin (gpio (Pinout.pin1 (_pinout self))) false;
      EvPin (gpio (Pinout.pin2 (_pinout self))) false;
      EvPin (gpio (Pinout.pin3 (_pinout self))) false;
      EvPin (gpio (Pinout.pin4 (_pinout self))) false]).
Proof.
  by destruct self as [[[g1 l1] [g2 l2] [g3 l3] [g4 l4]] sp de st ss dd ns].
Qed.

Lemma sum_nonnegative (l : list Z) :
  Forall (fun n => 0 <= n) l -> 0 <= sum l.
Proof.
  unfold sum. induction 1 as [| n l Hn Hl IH]; cbn [foldr]; lia.
Qed.

Lemma step_each_run (l : list Z) (self : BipolarStepper) :
  Forall (fun n => 0 <= n) l ->
  step_each l self = advances (Z.to_nat (sum l)) self.
Proof.
  intros H. revert self. induction H as [| n l Hn Hl IH]; intros self; [reflexivity |].
  unfold step_each in *. cbn [for_in sum foldr].
  fold (sum l). rewrite Z2Nat.inj_add by (exact Hn || by apply sum_nonnegative).
  rewrite advances_add.
  rewrite (bind_run _ _ _ _ _ _ (next_steps_exact n self)).
  rewrite (bind_run _ _ _ _ _ _ (advances_exact (Z.to_nat n) self)).
  cbv beta. by rewrite IH.
Qed.

Lemma construct_exact (pin1 pin2 pin3 pin4 : Z) (speed direction : object) (steps : Z) :
  construct pin1 pin2 pin3 pin4 speed direction steps =
    (Ok tt,
     mkStepper (Pinout.new pin1 pin2 pin3 pin4) speed_table
               (match dict_getitem speed_table speed with
                | Ok d => d
                | Raise _ => 0.003%Q
                end)
               steps 12 direction_table
               (match dict_getitem direction_table direction with
                | Ok m => m
                | Raise _ => Forward_step
                end),
     [EvPrint "init motor"; EvPin pin1 false; EvPin pin2 false;
      EvPin pin3 false; EvPin pin4 false]).
Proof.
  cbv beta iota delta [construct __init__ mbind M_bind bind assign].
  rewrite (set_speed_run speed _ 0.003%Q) by exact speed_table_high.
  cbv beta iota.
  rewrite (set_direction_run direction _ Forward_step) by exact direction_table_forward.
  reflexivity.
Qed.

End Composition.

(** X1: whatever the arguments, the constructor raises nothing and leaves
    the four pins low on the GPIO lines given, the step state 1100, the
    step count as given, both tables built, the delay and the direction
    looked up by name with 'high' and 'forward' standing in for any name
    the tables lack; the board sees the print and four low writes, and no
    delay. *)
Theorem construct_leaves_motor_released
    (pin1 pin2 pin3 pin4 : Z) (speed direction : object) (steps : Z) :
  construct pin1 pin2 pin3 pin4 speed direction steps =
    (Ok tt,
     mkStepper (Pinout.new pin1 pin2 pin3 pin4) speed_table
               (match dict_getitem speed_table speed with
                | Ok d => d
                | Raise _ => 0.003%Q
                end)
               steps 12 direction_table
               (match dict_getitem direction_table direction with
                | Ok m => m
                | Raise _ => Forward_step
                end),
     [EvPrint "init motor"; EvPin pin1 false; EvPin pin2 false;
      EvPin pin3 false; EvPin pin4 false]).
Proof. apply construct_exact. Qed.

(** X2: on a 4-bit step state the forward transition is a rotation by one
    position toward bit 0 and the backward transition a rotation by one
    position toward bit 3: bit [i] of the new state is bit [i+1], or
    [i-1], of the old one, counted modulo 4; the new state is 4-bit
    again. *)
Theorem transitions_rotate_bits (d : bound_method) (self : BipolarStepper) (i : Z) :
  0 <= _step_state self < 16 ->
  0 <= i < 4 ->
  Z.testbit (_step_state (final (call d self))) i =
    Z.testbit (_step_state self)
              (match d with
               | Forward_step => (i + 1) mod 4
               | Backward_step => (i - 1) mod 4
               end) /\
  0 <= _step_state (final (call d self)) < 16.
Proof.
  intros Hs Hi. rewrite call_shift. cbn [final fst snd _step_state with_step_state].
  split; [by apply shift_rotates | by apply shift_four_bit].
Qed.

Lemma transitions_rotate_bits_witness :
  Z.testbit (_step_state (final (call Backward_step default_stepper))) 0 =
    Z.testbit (_step_state default_stepper) ((0 - 1) mod 4) /\
  0 <= _step_state (final (call Backward_step default_stepper)) < 16.
Proof.
  apply (transitions_rotate_bits Backward_step default_stepper 0).
  - vm_compute. split; [discriminate | reflexivity].
  - lia.
Defined.

(** X3: [_move_motor] puts bit 3 of the step state on pin 2 (A+), bit 2
    on pin 1 (B+), bit 1 on pin 4 (A-) and bit 0 on pin 3 (B-), in that
    order, then sleeps for the stored delay; it raises nothing and
    changes nothing but the four levels.  Bits above bit 3 are ignored. *)
Theorem move_motor_shows_step_state (self : BipolarStepper) :
  outcome (_move_motor self) = Ok tt /\
  final (_move_motor self) = with_pinout (driven (_step_state self) (_pinout self)) self /\
  coil_levels (final (_move_motor self)) =
    [Z.testbit (_step_state self) 3; Z.testbit (_step_state self) 2;
     Z.testbit (_step_state self) 1; Z.testbit (_step_state self) 0] /\
  calls (_move_motor self) =
    [EvPin (gpio (Pinout.pin2 (_pinout self))) (Z.testbit (_step_state self) 3);
     EvPin (gpio (Pinout.pin1 (_pinout self))) (Z.testbit (_step_state self) 2);
     EvPin (gpio (Pinout.pin4 (_pinout self))) (Z.testbit (_step_state self) 1);
     EvPin (gpio (Pinout.pin3 (_pinout self))) (Z.testbit (_step_state self) 0);
     EvSleep (_delay self)].
Proof. rewrite move_motor_run. repeat split. Qed.

(** X4: for non-negative counts, [next_steps(a + b)] is [next_steps(a)]
    followed by [next_steps(b)]: the same object and the same board calls
    in the same order. *)
Theorem next_steps_add (a b : Z) (self : BipolarStepper) :
  0 <= a -> 0 <= b ->
  next_steps (a + b) self = (next_steps a;; next_steps b) self.
Proof.
  intros Ha Hb. rewrite next_steps_advances, Z2Nat.inj_add, advances_add by lia.
  rewrite (bind_run _ _ _ _ _ _ (advances_exact (Z.to_nat a) self)).
  rewrite (bind_run _ _ _ _ _ _ (next_steps_exact a self)).
  by rewrite next_steps_advances.
Qed.

Lemma next_steps_add_witness :
  next_steps (2 + 3) default_stepper = (next_steps 2;; next_steps 3) default_stepper.
Proof. apply (next_steps_add 2 3 default_stepper); lia. Defined.

(** X5: on a 4-bit step state the phase repeats every four steps: four
    more steps lead to the same step state, and once at least one step is
    made, to the very same object. *)
Theorem next_steps_period_four (n : Z) (self : BipolarStepper) :
  0 <= _step_state self < 16 ->
  0 <= n ->
  _step_state (final (next_steps (n + 4) self)) = _step_state (final (next_steps n self)) /\
  (1 <= n -> final (next_steps (n + 4) self) = final (next_steps n self)).
Proof.
  intros Hs Hn. rewrite !next_steps_exact. cbn [final fst snd].
  replace (Z.to_nat (n + 4)) with (Z.to_nat n + 4)%nat by lia.
  assert (E : phase_after (Z.to_nat n + 4) self = phase_after (Z.to_nat n) self)
    by (by apply iter_shift_period).
  split; [by rewrite !stepped_phase |].
  intros H1. destruct (Z.to_nat n) as [| k] eqn:Ek; [lia |].
  cbn [Nat.add stepped]. change (S (k + 4)) with (S k + 4)%nat. by rewrite E.
Qed.

Lemma next_steps_period_four_witness :
  _step_state (final (next_steps (200 + 4) default_stepper))
    = _step_state (final (next_steps 200 default_stepper)) /\
  (1 <= 200 ->
   final (next_steps (200 + 4) default_stepper) = final (next_steps 200 default_stepper)).
Proof.
  apply (next_steps_period_four 200 default_stepper).
  - vm_compute. split; [discriminate | reflexivity].
  - lia.
Defined.

(** X6: with the tables of [__init__] and a 4-bit step state, [n] steps
    forward followed by [n] steps backward, and [n] steps backward
    followed by [n] steps forward, lead back to the step state the motor
    started from. *)
Theorem steps_forth_and_back (n : Z) (self : BipolarStepper) :
  tables_intact self ->
  0 <= _step_state self < 16 ->
  0 <= n ->
  _step_state (final ((set_direction (Str "forward");; next_steps n;;
                       set_direction (Str "backward");; next_steps n) self))
    = _step_state self /\
  _step_state (final ((set_direction (Str "backward");; next_steps n;;
                       set_direction (Str "forward");; next_steps n) self))
    = _step_state self.
Proof.
  intros [Hsp Hd] Hs Hn.
  assert (Hf : forall s : BipolarStepper, _dic_direction s = direction_table ->
               set_direction (Str "forward") s = (Ok tt, with_next_state Forward_step s, [])).
  { intros s E. rewrite (set_direction_run _ s Forward_step)
      by (rewrite E; exact direction_table_forward).
    by rewrite E. }
  assert (Hb : forall s : BipolarStepper, _dic_direction s = direction_table ->
               set_direction (Str "backward") s = (Ok tt, with_next_state Backward_step s, [])).
  { intros s E. rewrite (set_direction_run _ s Forward_step)
      by (rewrite E; exact direction_table_forward).
    by rewrite E. }
  destruct (iter_shift_back (Z.to_nat n) (_step_state self) Hs) as [Efb Ebf].
  split.
  - rewrite (bind_run _ _ _ _ _ _ (Hf self Hd)). cbn [final fst snd].
    rewrite (bind_run _ _ _ _ _ _ (next_steps_exact n _)). cbn [final fst snd].
    erewrite bind_run by (apply Hb; by destruct (Z.to_nat n)).
    cbn [final fst snd]. rewrite next_steps_exact. cbn [final fst snd].
    rewrite stepped_phase. unfold phase_after at 1.
    cbn [_next_state with_next_state _step_state]. rewrite stepped_phase. exact Efb.
  - rewrite (bind_run _ _ _ _ _ _ (Hb self Hd)). cbn [final fst snd].
    rewrite (bind_run _ _ _ _ _ _ (next_steps_exact n _)). cbn [final fst snd].
    erewrite bind_run by (apply Hf; by destruct (Z.to_nat n)).
    cbn [final fst snd]. rewrite next_steps_exact. cbn [final fst snd].
    rewrite stepped_phase. unfold phase_after at 1.
    cbn [_next_state with_next_state _step_state]. rewrite stepped_phase. exact Ebf.
Qed.

Lemma steps_forth_and_back_witness :
  _step_state (final ((set_direction (Str "forward");; next_steps 7;;
                       set_direction (Str "backward");; next_steps 7) default_stepper))
    = _step_state default_stepper /\
  _step_state (final ((set_direction (Str "backward");; next_steps 7;;
                       set_direction (Str "forward");; next_steps 7) default_stepper))
    = _step_state default_stepper.
Proof.
  apply (steps_forth_and_back 7 default_stepper).
  - split; reflexivity.
  - vm_compute. split; [discriminate | reflexivity].
  - lia.
Defined.

Section Logs.

Lemma waited_stepped_log (k : nat) (self : BipolarStepper) :
  (waited (stepped_log k self) == inject_Z (Z.of_nat k) * _delay self)%Q.
Proof.
  unfold stepped_log. generalize 0%nat as start.
  induction k as [| k IH]; intros start.
  - cbn. ring.
  - cbn [seq fmap list_fmap mjoin list_join]. unfold step_log at 1.
    cbn [app waited foldr]. fold (waited (mjoin ((fun i => step_log self (phase_after (S i) self))
                                                   <$> seq (S start) k))).
    rewrite (IH (S start)), Nat2Z.inj_succ. unfold Z.succ. rewrite inject_Z_plus. ring.
Qed.

Lemma lines_stepped_log (k : nat) (self : BipolarStepper) :
  Forall (fun line => line ∈ [gpio (Pinout.pin1 (_pinout self));
                              gpio (Pinout.pin2 (_pinout self));
                              gpio (Pinout.pin3 (_pinout self));
                              gpio (Pinout.pin4 (_pinout self))])
         (lines_written (stepped_log k self)).
Proof.
  unfold stepped_log. generalize 0%nat as start.
  induction k as [| k IH]; intros start; [constructor |].
  cbn [seq fmap list_fmap mjoin list_join]. unfold step_log at 1.
  cbn [app lines_written omap list_omap].
  repeat (apply Forall_cons; split; [rewrite !elem_of_cons; auto 6 |]).
  apply (IH (S start)).
Qed.

Lemma sleeps_stepped_log (k : nat) (self : BipolarStepper) :
  sleeps (stepped_log k self) = k.
Proof.
  pose proof (advances_log k self) as (_ & H & _).
  by rewrite advances_exact in H.
Qed.

End Logs.

(** X7: [next_steps(n)] with [n >= 0] raises nothing, sleeps [n] times
    for the stored delay, [n] times that delay in all, and writes to no
    line other than the four GPIO lines of the object. *)
Theorem next_steps_takes_n_delays (n : Z) (self : BipolarStepper) :
  0 <= n ->
  outcome (next_steps n self) = Ok tt /\
  Z.of_nat (sleeps (calls (next_steps n self))) = n /\
  (waited (calls (next_steps n self)) == inject_Z n * _delay self)%Q /\
  Forall (fun line => line ∈ [gpio (Pinout.pin1 (_pinout self));
                              gpio (Pinout.pin2 (_pinout self));
                              gpio (Pinout.pin3 (_pinout self));
                              gpio (Pinout.pin4 (_pinout self))])
         (lines_written (calls (next_steps n self))).
Proof.
  intros Hn. rewrite next_steps_exact. cbn [outcome calls fst snd].
  split; [reflexivity |]. split; [rewrite sleeps_stepped_log; lia |].
  split; [| apply lines_stepped_log].
  rewrite waited_stepped_log, Z2Nat.id by exact Hn. reflexivity.
Qed.

Lemma next_steps_takes_n_delays_witness :
  outcome (next_steps 100 default_stepper) = Ok tt /\
  Z.of_nat (sleeps (calls (next_steps 100 default_stepper))) = 100 /\
  (waited (calls (next_steps 100 default_stepper))
     == inject_Z 100 * _delay default_stepper)%Q /\
  Forall (fun line => line ∈ [gpio (Pinout.pin1 (_pinout default_stepper));
                              gpio (Pinout.pin2 (_pinout default_stepper));
                              gpio (Pinout.pin3 (_pinout default_stepper));
                              gpio (Pinout.pin4 (_pinout default_stepper))])
         (lines_written (calls (next_steps 100 default_stepper))).
Proof. apply (next_steps_takes_n_delays 100 default_stepper). lia. Defined.


(** X9: whole turns are exact: [next_angle(360 * k)] is
    [next_steps(k * steps360)], whatever the step count per turn. *)
Theorem next_angle_whole_turns (k : Z) (self : BipolarStepper) :
  next_angle (360 * k) self = next_steps (k * _steps360 self) self.
Proof.
  rewrite next_angle_run. f_equal.
  replace (_steps360 self * (360 * k)) with (k * _steps360 self * 360) by lia.
  apply Z.div_mul. lia.
Qed.

(** X10: for a positive number of parts and a non-negative step count per
    turn, stepping through the parts that [split_steps] returns, one
    [next_steps] call per part, is one full turn: the same as
    [next_steps(steps360)]. *)
Theorem split_parts_make_one_turn (nsplits : Z) (self : BipolarStepper) :
  0 < nsplits ->
  0 <= _steps360 self ->
  exists l : list Z,
    outcome (split_steps nsplits self) = Ok l /\
    step_each l self = next_steps (_steps360 self) self.
Proof.
  intros Hn Hs.
  pose proof (Z.mod_pos_bound (_steps360 self) nsplits Hn) as Hr.
  pose proof (Z.div_mod (_steps360 self) nsplits ltac:(lia)) as Hd.
  pose proof (Z.div_pos (_steps360 self) nsplits Hs Hn) as Hq.
  eexists. split; [by rewrite split_steps_run |].
  rewrite step_each_run, next_steps_advances.
  - f_equal. f_equal. rewrite sum_app, !sum_replicate, !Z2Nat.id by lia. lia.
  - apply Forall_app. split; apply Forall_replicate; lia.
Qed.

Lemma split_parts_make_one_turn_witness :
  exists l : list Z,
    outcome (split_steps 7 default_stepper) = Ok l /\
    step_each l default_stepper = next_steps (_steps360 default_stepper) default_stepper.
Proof.
  apply (split_parts_make_one_turn 7 default_stepper).
  - lia.
  - vm_compute. discriminate.
Defined.

(** X11: with the tables of [__init__], the last [set_speed] wins, the
    last [set_direction] wins, and a [set_speed] and a [set_direction]
    can be made in either order. *)
Theorem settings_compose (a b c d : object) (self : BipolarStepper) :
  tables_intact self ->
  (set_speed a;; set_speed b) self = set_speed b self /\
  (set_direction c;; set_direction d) self = set_direction d self /\
  (set_speed a;; set_direction c) self = (set_direction c;; set_speed a) self.
Proof.
  intros [Hs Hd].
  assert (Hsp : forall (x : object) (s : BipolarStepper), _speed s = speed_table ->
                set_speed x s =
                  (Ok tt, with_delay (match dict_getitem speed_table x with
                                      | Ok v => v
                                      | Raise _ => 0.003%Q
                                      end) s, [])).
  { intros x s E. rewrite (set_speed_run x s 0.003%Q)
      by (rewrite E; exact speed_table_high).
    by rewrite E. }
  assert (Hdi : forall (x : object) (s : BipolarStepper), _dic_direction s = direction_table ->
                set_direction x s =
                  (Ok tt, with_next_state (match dict_getitem direction_table x with
                                           | Ok v => v
                                           | Raise _ => Forward_step
                                           end) s, [])).
  { intros x s E. rewrite (set_direction_run x s Forward_step)
      by (rewrite E; exact direction_table_forward).
    by rewrite E. }
  repeat split.
  - rewrite (bind_run _ _ _ _ _ _ (Hsp a self Hs)), !Hsp by exact Hs. reflexivity.
  - rewrite (bind_run _ _ _ _ _ _ (Hdi c self Hd)), !Hdi by exact Hd. reflexivity.
  - rewrite (bind_run _ _ _ _ _ _ (Hsp a self Hs)), (bind_run _ _ _ _ _ _ (Hdi c self Hd)).
    rewrite Hsp, Hdi by assumption. reflexivity.
Qed.

Lemma settings_compose_witness :
  (set_speed (Str "low");; set_speed (Str "test")) default_stepper
    = set_speed (Str "test") default_stepper /\
  (set_direction NoneObj;; set_direction (Str "backward")) default_stepper
    = set_direction (Str "backward") default_stepper /\
  (set_speed (Str "low");; set_direction NoneObj) default_stepper
    = (set_direction NoneObj;; set_speed (Str "low")) default_stepper.
Proof.
  apply (settings_compose (Str "low") (Str "test") NoneObj (Str "backward") default_stepper).
  split; reflexivity.
Defined.

Section Configuration.

Lemma set_speed_final (speed : object) (self : BipolarStepper) :
  exists d, final (set_speed speed self) = with_delay d self.
Proof.
  unfold set_speed, try_except, mbind, M_bind, bind, attr, lift, assign.
  destruct (dict_getitem (_speed self) speed) as [d | e]; cbn.
  - by exists d.
  - destruct (_speed self !! "high"%string) as [d |]; cbn.
    + by exists d.
    + exists (_delay self). by destruct self.
Qed.

Lemma set_direction_final (direction : object) (self : BipolarStepper) :
  exists m, final (set_direction direction self) = with_next_state m self.
Proof.
  unfold set_direction, try_except, mbind, M_bind, bind, attr, lift, assign.
  destruct (dict_getitem (_dic_direction self) direction) as [d | e]; cbn.
  - by exists d.
  - destruct (_dic_direction self !! "forward"%string) as [d |]; cbn.
    + by exists d.
    + exists (_next_state self). by destruct self.
Qed.

Lemma split_steps_final (nsplits : Z) (self : BipolarStepper) :
  final (split_steps nsplits self) = self /\ calls (split_steps nsplits self) = [].
Proof.
  destruct (Z.lt_trichotomy nsplits 0) as [Hn | [-> | Hn]].
  - by rewrite split_steps_negative.
  - by rewrite split_steps_zero.
  - by rewrite split_steps_run.
Qed.

End Configuration.

(** X12: no public call, whatever its argument and whether it returns or
    raises, changes the step count per turn, the two tables, or the GPIO
    line of any of the four pins. *)
Theorem public_calls_keep_configuration (r : request) (self : BipolarStepper) :
  _steps360 (serve r self) = _steps360 self /\
  _speed (serve r self) = _speed self /\
  _dic_direction (serve r self) = _dic_direction self /\
  gpio (Pinout.pin1 (_pinout (serve r self))) = gpio (Pinout.pin1 (_pinout self)) /\
  gpio (Pinout.pin2 (_pinout (serve r self))) = gpio (Pinout.pin2 (_pinout self)) /\
  gpio (Pinout.pin3 (_pinout (serve r self))) = gpio (Pinout.pin3 (_pinout self)) /\
  gpio (Pinout.pin4 (_pinout (serve r self))) = gpio (Pinout.pin4 (_pinout self)).
Proof.
  destruct r as [speed | direction | nsteps | angle | | nsplits]; cbn [serve].
  - destruct (set_speed_final speed self) as [d ->]. repeat split.
  - destruct (set_direction_final direction self) as [m ->]. repeat split.
  - rewrite next_steps_exact. cbn [final fst snd].
    destruct (stepped_frame (Z.to_nat nsteps) self) as (_ & _ & ? & ? & ? & ? & ? & ? & ?).
    repeat split; assumption.
  - rewrite next_angle_run, next_steps_exact. cbn [final fst snd].
    destruct (stepped_frame (Z.to_nat (_steps360 self * angle / 360)) self)
      as (_ & _ & ? & ? & ? & ? & ? & ? & ?).
    repeat split; assumption.
  - rewrite sleep_run. repeat split.
  - destruct (split_steps_final nsplits self) as [-> _]. repeat split.
Qed.

(** X13: a [sleep] before a move of at least one step does not change
    where the move ends: the object is the same as without it, and the
    board sees the four low writes followed by the calls of the move. *)
Theorem sleep_before_move_keeps_position (n : Z) (self : BipolarStepper) :
  1 <= n ->
  final ((sleep;; next_steps n) self) = final (next_steps n self) /\
  calls ((sleep;; next_steps n) self) = calls (sleep self) ++ calls (next_steps n self).
Proof.
  intros Hn. rewrite (bind_run _ _ _ _ _ _ (sleep_run self)).
  rewrite sleep_run, !next_steps_exact. cbn [final calls fst snd].
  destruct (Z.to_nat n) as [| k] eqn:Ek; [lia |].
  destruct self as [[[g1 l1] [g2 l2] [g3 l3] [g4 l4]] sp de st ss dd ns].
  split; reflexivity.
Qed.

Lemma sleep_before_move_keeps_position_witness :
  final ((sleep;; next_steps 3) default_stepper) = final (next_steps 3 default_stepper) /\
  calls ((sleep;; next_steps 3) default_stepper)
    = calls (sleep default_stepper) ++ calls (next_steps 3 default_stepper).
Proof. apply (sleep_before_move_keeps_position 3 default_stepper). lia. Defined.

Section PublicCalls.

Lemma in_use_default : in_use default_stepper.
Proof. apply in_use_new. Qed.

Lemma serve_settled (r : request) (self : BipolarStepper) :
  pins_settled self -> pins_settled (serve r self).
Proof.
  intros H. destruct r as [speed | direction | nsteps | angle | | nsplits]; cbn [serve].
  - destruct (set_speed_final speed self) as [d ->]. exact H.
  - destruct (set_direction_final direction self) as [m ->]. exact H.
  - rewrite next_steps_exact. cbn [final fst snd].
    destruct (Z.to_nat nsteps); [exact H | by right].
  - rewrite next_angle_run, next_steps_exact. cbn [final fst snd].
    destruct (Z.to_nat _); [exact H | by right].
  - rewrite sleep_run. by left.
  - by destruct (split_steps_final nsplits self) as [-> _].
Qed.

Lemma in_use_settled (self : BipolarStepper) : in_use self -> pins_settled self.
Proof.
  induction 1 as [p1 p2 p3 p4 speed direction steps | r self Hu IH].
  - destruct (construct_run p1 p2 p3 p4 speed direction steps) as (d & m & ->). by left.
  - by apply serve_settled.
Qed.

End PublicCalls.



(** X15: on an object in use the two ends of a coil are never driven high
    together, neither A+ with A- (pins 2 and 4) nor B+ with B- (pins 1
    and 3), and the number of pins that are high is 0 or 2. *)
Theorem coil_ends_never_both_high (self : BipolarStepper) :
  in_use self ->
  level (Pinout.pin2 (_pinout self)) && level (Pinout.pin4 (_pinout self)) = false /\
  level (Pinout.pin1 (_pinout self)) && level (Pinout.pin3 (_pinout self)) = false /\
  (length (List.filter id (coil_levels self)) = 0%nat \/
   length (List.filter id (coil_levels self)) = 2%nat).
Proof.
  intros Hu. destruct (in_use_sound self Hu) as [_ Hc].
  pose proof (in_use_settled self Hu) as Hp.
  destruct self as [[[g1 l1] [g2 l2] [g3 l3] [g4 l4]] sp de st ss dd ns].
  unfold pins_settled, released, driven, coil_levels in *.
  cbn [_pinout _step_state Pinout.pin1 Pinout.pin2 Pinout.pin3 Pinout.pin4 gpio level] in *.
  destruct Hp as [Hp | Hp]; injection Hp as -> -> -> ->.
  - repeat split. by left.
  - unfold canonical_phases in Hc. rewrite !elem_of_cons, elem_of_nil in Hc.
    destruct Hc as [-> | [-> | [-> | [-> | []]]]]; repeat split; by right.
Qed.

Lemma coil_ends_never_both_high_witness :
  level (Pinout.pin2 (_pinout (serve (NextSteps 3) default_stepper)))
    && level (Pinout.pin4 (_pinout (serve (NextSteps 3) default_stepper))) = false /\
  level (Pinout.pin1 (_pinout (serve (NextSteps 3) default_stepper)))
    && level (Pinout.pin3 (_pinout (serve (NextSteps 3) default_stepper))) = false /\
  (length (List.filter id (coil_levels (serve (NextSteps 3) default_stepper))) = 0%nat \/
   length (List.filter id (coil_levels (serve (NextSteps 3) default_stepper))) = 2%nat).
Proof.
  apply (coil_ends_never_both_high (serve (NextSteps 3) default_stepper)).
  apply in_use_serve, in_use_new.
Defined.

(** X16: whatever public calls were made on an object, with whatever
    arguments, its step state is one of 1100, 0110, 0011, 1001, with two
    neighbouring bits set, and its tables are those of [__init__]. *)
Theorem public_calls_keep_phase (self : BipolarStepper) :
  in_use self ->
  _step_state self ∈ canonical_phases /\
  bits_set (_step_state self) = 2%nat /\
  adjacent_pair (_step_state self) = true /\
  tables_intact self.
Proof.
  intros Hu. destruct (in_use_sound self Hu) as [Ht Hc].
  destruct (canonical_two_adjacent_bits _ Hc) as (_ & Hb & Ha).
  repeat split; try assumption; apply Ht.
Qed.

Lemma public_calls_keep_phase_witness :
  _step_state (serve (NextAngle 90) (serve (SetDirection (Int 3)) default_stepper))
    ∈ canonical_phases /\
  bits_set (_step_state (serve (NextAngle 90) (serve (SetDirection (Int 3)) default_stepper)))
    = 2%nat /\
  adjacent_pair (_step_state (serve (NextAngle 90) (serve (SetDirection (Int 3)) default_stepper)))
    = true /\
  tables_intact (serve (NextAngle 90) (serve (SetDirection (Int 3)) default_stepper)).
Proof.
  apply (public_calls_keep_phase
           (serve (NextAngle 90) (serve (SetDirection (Int 3)) default_stepper))).
  do 2 apply in_use_serve. apply in_use_new.
Defined.

(** X17: after a move of at least one step the four pin levels are the
    bits of the step state the move ended on: A+, B+, A-, B- show bits 3,
    2, 1, 0; the delay and the direction are the ones stored before. *)
Theorem move_ends_showing_step_state (n : Z) (self : BipolarStepper) :
  1 <= n ->
  coil_levels (final (next_steps n self)) =
    [Z.testbit (_step_state (final (next_steps n self))) 3;
     Z.testbit (_step_state (final (next_steps n self))) 2;
     Z.testbit (_step_state (final (next_steps n self))) 1;
     Z.testbit (_step_state (final (next_steps n self))) 0] /\
  _delay (final (next_steps n self)) = _delay self /\
  _next_state (final (next_steps n self)) = _next_state self.
Proof.
  intros Hn. rewrite next_steps_exact. cbn [final fst snd].
  destruct (Z.to_nat n) as [| k] eqn:Ek; [lia |]. repeat split.
Qed.

Lemma move_ends_showing_step_state_witness :
  coil_levels (final (next_steps 5 default_stepper)) =
    [Z.testbit (_step_state (final (next_steps 5 default_stepper))) 3;
     Z.testbit (_step_state (final (next_steps 5 default_stepper))) 2;
     Z.testbit (_step_state (final (next_steps 5 default_stepper))) 1;
     Z.testbit (_step_state (final (next_steps 5 default_stepper))) 0] /\
  _delay (final (next_steps 5 default_stepper)) = _delay default_stepper /\
  _next_state (final (next_steps 5 default_stepper)) = _next_state default_stepper.
Proof. apply (move_ends_showing_step_state 5 default_stepper). lia. Defined.

Section Rotation.

Lemma iter_shift_rotates (d : bound_method) (k : nat) (s i : Z) :
  0 <= s < 16 -> 0 <= i < 4 ->
  Z.testbit (Nat.iter k (shift d) s) i =
    Z.testbit s (match d with
                 | Forward_step => (i + Z.of_nat k) mod 4
                 | Backward_step => (i - Z.of_nat k) mod 4
                 end).
Proof.
  intros Hs. revert i. induction k as [| k IH]; intros i Hi.
  - cbn [Nat.iter Z.of_nat]. destruct d; f_equal; rewrite Z.mod_small; lia.
  - rewrite Nat.iter_succ, shift_rotates by (by apply iter_shift_four_bit || exact Hi).
    destruct d.
    + rewrite IH by (apply Z.mod_pos_bound; lia). f_equal.
      rewrite Zplus_mod_idemp_l. f_equal. lia.
    + rewrite IH by (apply Z.mod_pos_bound; lia). f_equal.
      rewrite Zminus_mod_idemp_l. f_equal. lia.
Qed.

End Rotation.

(** X18: with the tables of [__init__], a move of [n >= 0] steps made
    right after [set_speed(x)] sleeps [n] times the delay the table holds
    for [x], or [n] times 0.003 s when [x] is not a key of the table. *)
Theorem set_speed_sets_the_pace (x : object) (n : Z) (self : BipolarStepper) :
  tables_intact self ->
  0 <= n ->
  (waited (calls ((set_speed x;; next_steps n) self)) ==
   inject_Z n * match dict_getitem speed_table x with
                | Ok d => d
                | Raise _ => 0.003
                end)%Q.
Proof.
  intros [Hs _] Hn.
  rewrite (bind_run _ _ _ _ _ _ (set_speed_run x self 0.003%Q
                                   ltac:(rewrite Hs; exact speed_table_high))).
  rewrite next_steps_exact. cbn [calls snd app].
  rewrite waited_stepped_log, Z2Nat.id by exact Hn.
  cbn [_delay with_delay]. rewrite Hs. reflexivity.
Qed.

Lemma set_speed_sets_the_pace_witness :
  (waited (calls ((set_speed (Str "medium");; next_steps 200) default_stepper)) ==
   inject_Z 200 * match dict_getitem speed_table (Str "medium") with
                  | Ok d => d
                  | Raise _ => 0.003
                  end)%Q.
Proof.
  apply (set_speed_sets_the_pace (Str "medium") 200 default_stepper).
  - split; reflexivity.
  - lia.
Defined.

(** X19: on a 4-bit step state, [n >= 0] steps rotate the pattern by [n]
    positions: in the forward direction bit [i] of the new state is bit
    [(i + n) mod 4] of the old one, in the backward direction bit
    [(i - n) mod 4]. *)
Theorem next_steps_rotates_by_n (n i : Z) (self : BipolarStepper) :
  0 <= _step_state self < 16 ->
  0 <= n ->
  0 <= i < 4 ->
  Z.testbit (_step_state (final (next_steps n self))) i =
    Z.testbit (_step_state self)
              (match _next_state self with
               | Forward_step => (i + n) mod 4
               | Backward_step => (i - n) mod 4
               end).
Proof.
  intros Hs Hn Hi. rewrite next_steps_exact. cbn [final fst snd].
  rewrite stepped_phase. unfold phase_after.
  rewrite iter_shift_rotates, Z2Nat.id by assumption. reflexivity.
Qed.

Lemma next_steps_rotates_by_n_witness :
  Z.testbit (_step_state (final (next_steps 6 default_stepper))) 1 =
    Z.testbit (_step_state default_stepper)
              (match _next_state default_stepper with
               | Forward_step => (1 + 6) mod 4
               | Backward_step => (1 - 6) mod 4
               end).
Proof.
  apply (next_steps_rotates_by_n 6 1 default_stepper).
  - vm_compute. split; [discriminate | reflexivity].
  - lia.
  - lia.
Defined.
